(** * AgriPrice: price spikes and typhoon lag

    A shallow embedding of the analytic core of [AgriPrice/app.py]: the
    per-commodity statistics and the [Price_Spike] column (lines 430-437),
    the transform-based fallback of the same column (lines 511-512), the
    typhoon lag loop (lines 560-585) and the lag summary (lines 587-593).

    Conventions of the embedding.
    - A pandas float64 cell is an [option R]: [None] is NaN, [Some x] a
      number.  Arithmetic is that of the real numbers, so rounding of
      binary64 is not part of the model; NaN propagation and the rule that
      every comparison with NaN is [False] are.
    - A DataFrame is the list of its rows, in row order.
    - A pandas Timestamp is a calendar date with a time of day, ordered
      chronologically.
    - The integer column [Lag_Months] is a [Z]; its mean and median are
      exact rationals. *)

From Stdlib Require Import String Ascii List Bool Arith ZArith QArith.
From Stdlib Require Import Reals Lra Lia Permutation Sorted.
Import ListNotations.

(** ** Timestamps *)

Module Timestamp.

Local Open Scope Z_scope.

(** [nanos] is the time of day in nanoseconds since midnight. *)
Record t : Type := mk
  { year : Z; month : Z; day : Z; nanos : Z }.

Definition is_leap_year (y : Z) : bool :=
  ((y mod 4 =? 0) && negb (y mod 100 =? 0)) || (y mod 400 =? 0).

Definition days_in_month (y m : Z) : Z :=
  if m =? 2 then (if is_leap_year y then 29 else 28)
  else if (m =? 4) || (m =? 6) || (m =? 9) || (m =? 11) then 30
  else 31.

(** A value that a datetime64 column can hold. *)
Definition valid (d : t) : Prop :=
  1 <= month d <= 12 /\
  1 <= day d <= days_in_month (year d) (month d) /\
  0 <= nanos d < 86400000000000.

Definition validb (d : t) : bool :=
  (1 <=? month d) && (month d <=? 12) &&
  (1 <=? day d) && (day d <=? days_in_month (year d) (month d)) &&
  (0 <=? nanos d) && (nanos d <? 86400000000000).

(** Chronological order: lexicographic on year, month, day, time of day. *)
Definition ltb (a b : t) : bool :=
  (year a <? year b) ||
  ((year a =? year b) &&
   ((month a <? month b) ||
    ((month a =? month b) &&
     ((day a <? day b) ||
      ((day a =? day b) && (nanos a <? nanos b)))))).

Definition eqb (a b : t) : bool :=
  (year a =? year b) && (month a =? month b) &&
  (day a =? day b) && (nanos a =? nanos b).

Definition leb (a b : t) : bool := ltb a b || eqb a b.

Definition min (a b : t) : t := if leb a b then a else b.

(** [d + pd.DateOffset(months=n)]: the month is advanced with carry into
    the year, the day is clipped to the length of the target month, the
    time of day is kept. *)
Definition add_months (d : t) (n : Z) : t :=
  let total := month d - 1 + n in
  let y := year d + total / 12 in
  let m := total mod 12 + 1 in
  mk y m (Z.min (day d) (days_in_month y m)) (nanos d).

(** [(a.year - b.year) * 12 + (a.month - b.month)] *)
Definition month_diff (a b : t) : Z :=
  (year a - year b) * 12 + (month a - month b).

(** [Series.min()] of a non-empty column whose first cell is [d]. *)
Definition min_list (d : t) (ds : list t) : t := fold_left min ds d.

(** The order as a proposition over the four components. *)
Definition lt (a b : t) : Prop :=
  year a < year b \/
  (year a = year b /\
   (month a < month b \/
    (month a = month b /\
     (day a < day b \/ (day a = day b /\ nanos a < nanos b))))).

End Timestamp.

(** ** pandas cells, columns and group keys *)

(** A float64 cell; [NaN] is the missing value. *)
Definition float64 : Type := option R.
Definition NaN : float64 := None.

Definition fadd (a b : float64) : float64 :=
  match a, b with
  | Some x, Some y => Some (x + y)%R
  | _, _ => NaN
  end.

Definition fmul (a b : float64) : float64 :=
  match a, b with
  | Some x, Some y => Some (x * y)%R
  | _, _ => NaN
  end.

Definition Rgtb (x y : R) : bool := if Rgt_dec x y then true else false.

(** [a > b] on cells: [False] as soon as one side is NaN. *)
Definition fgt (a b : float64) : bool :=
  match a, b with
  | Some x, Some y => Rgtb x y
  | _, _ => false
  end.

Fixpoint insert_sorted {A : Type} (le : A -> A -> bool) (x : A) (l : list A)
  : list A :=
  match l with
  | [] => [x]
  | y :: l' => if le x y then x :: l else y :: insert_sorted le x l'
  end.

(** Ascending sort; used for the sorted group keys of [groupby] and for
    [sort_values]. *)
Definition sort_by {A : Type} (le : A -> A -> bool) (l : list A) : list A :=
  fold_right (insert_sorted le) [] l.

Fixpoint dropna {A : Type} (col : list (option A)) : list A :=
  match col with
  | [] => []
  | Some x :: col' => x :: dropna col'
  | None :: col' => dropna col'
  end.

(** The group keys of [groupby(key)]: the distinct non-null values of the
    key column, in ascending order (pandas defaults [sort=True],
    [dropna=True]). *)
Definition group_keys (col : list (option string)) : list string :=
  sort_by String.leb (nodup string_dec (dropna col)).

Definition key_eqb (k : option string) (c : string) : bool :=
  match k with
  | Some s => String.eqb s c
  | None => false
  end.

(** The rows of the group with key [c], in row order. *)
Definition group {A : Type} (key : A -> option string) (c : string)
  (df : list A) : list A :=
  filter (fun r => key_eqb (key r) c) df.

(** Aggregations of a float64 column. *)
Module Series.

Definition sum (x : list R) : R := fold_right Rplus 0%R x.

(** [x.mean()]: NaN on an empty column. *)
Definition mean (x : list R) : float64 :=
  match x with
  | [] => NaN
  | _ => Some (sum x / INR (length x))%R
  end.

(** [x.std()], pandas default [ddof=1]: NaN unless there are at least two
    observations. *)
Definition std (x : list R) : float64 :=
  match mean x with
  | None => NaN
  | Some m =>
      if (length x <=? 1)%nat then NaN
      else Some (sqrt (sum (map (fun v => (v - m) ^ 2) x)
                       / (INR (length x) - 1)))%R
  end.

End Series.

(** Aggregations of an int64 column; the results are float64 cells holding
    exact rationals. *)
Module IntSeries.

Definition sum (x : list Z) : Z := fold_right Z.add 0%Z x.

Definition mean (x : list Z) : option Q :=
  match x with
  | [] => None
  | _ => Some (inject_Z (sum x) / inject_Z (Z.of_nat (length x)))%Q
  end.

(** [x.median()]: the middle value of the sorted column, or the average of
    the two middle values when the length is even. *)
Definition median (x : list Z) : option Q :=
  let s := sort_by Z.leb x in
  let n := length s in
  match n with
  | O => None
  | _ =>
      if Nat.even n
      then Some ((inject_Z (nth (n / 2 - 1) s 0%Z)
                  + inject_Z (nth (n / 2) s 0%Z)) / 2)%Q
      else Some (inject_Z (nth (n / 2) s 0%Z))
  end.

End IntSeries.

(** ** Tables *)

(** [df] as returned by [load_data]: rows with a null [Date] or
    [Retail_Price] have been dropped; [Commodity_Name] may be null. *)
Module Price.
Record row : Type := mk
  { Date : Timestamp.t;
    Commodity_Name : option string;
    Retail_Price : R }.
End Price.

(** [stats] after the rename of line 433. *)
Module Stats.
Record row : Type := mk
  { Commodity_Name : string;
    Mean_Price : float64;
    Std_Price : float64 }.
End Stats.

(** [df] after the merge of line 434. *)
Module Merged.
Record row : Type := mk
  { Date : Timestamp.t;
    Commodity_Name : option string;
    Retail_Price : R;
    Mean_Price : float64;
    Std_Price : float64 }.
End Merged.

(** [df] after line 437. *)
Module Df.
Record row : Type := mk
  { Date : Timestamp.t;
    Commodity_Name : option string;
    Retail_Price : R;
    Mean_Price : float64;
    Std_Price : float64;
    Price_Spike : bool }.
End Df.

(** [df_typhoons]: [Typhoon_Name] is [None] when the table has no
    "Typhoon Name" column; [Date_Entered_PAR] is [None] for NaT. *)
Module Typhoon.
Record row : Type := mk
  { Typhoon_Name : option string;
    Date_Entered_PAR : option Timestamp.t }.
End Typhoon.

(** A row of [first_spikes] once [Lag_Months] and [Typhoon_Name] are set,
    that is a row of [df_lag]. *)
Module Lag.
Record row : Type := mk
  { Commodity_Name : string;
    Date : Timestamp.t;
    Lag_Months : Z;
    Typhoon_Name : string }.
End Lag.

(** A row of [lag_summary]. *)
Module LagSummary.
Record row : Type := mk
  { Commodity_Name : string;
    mean : option Q;
    median : option Q;
    count : nat }.
End LagSummary.

(** ** Price spikes (lines 430-437) *)

(** Line 432: [df.groupby("Commodity_Name")["Retail_Price"].agg(["mean",
    "std"])], with the column names of line 433. *)
Definition stats (df : list Price.row) : list Stats.row :=
  map (fun c =>
         let x := map Price.Retail_Price (group Price.Commodity_Name c df) in
         Stats.mk c (Series.mean x) (Series.std x))
      (group_keys (map Price.Commodity_Name df)).

(** Line 434: [df.merge(stats, on="Commodity_Name", how="left")].  Every
    left row is kept, once per matching right row, or once with NaN in the
    right columns when nothing matches. *)
Definition merge (df : list Price.row) (right : list Stats.row)
  : list Merged.row :=
  flat_map
    (fun r =>
       match filter (fun s => key_eqb (Price.Commodity_Name r)
                                      (Stats.Commodity_Name s)) right with
       | [] => [Merged.mk (Price.Date r) (Price.Commodity_Name r)
                          (Price.Retail_Price r) NaN NaN]
       | matches =>
           map (fun s => Merged.mk (Price.Date r) (Price.Commodity_Name r)
                                   (Price.Retail_Price r)
                                   (Stats.Mean_Price s) (Stats.Std_Price s))
               matches
       end)
    df.

(** Line 437, one row:
    [Retail_Price > (Mean_Price + 1.5 * Std_Price)]. *)
Definition Price_Spike (r : Merged.row) : bool :=
  fgt (Some (Merged.Retail_Price r))
      (fadd (Merged.Mean_Price r) (fmul (Some 1.5%R) (Merged.Std_Price r))).

Definition add_Price_Spike (r : Merged.row) : Df.row :=
  Df.mk (Merged.Date r) (Merged.Commodity_Name r) (Merged.Retail_Price r)
        (Merged.Mean_Price r) (Merged.Std_Price r) (Price_Spike r).

(** Lines 432-437: the frame with its [Price_Spike] column. *)
Definition price_spikes (df : list Price.row) : list Df.row :=
  map add_Price_Spike (merge df (stats df)).

(** ** The transform-based flag (lines 511-512) *)


(** [lambda x: x.mean() + 1.5 * x.std()] *)
Definition threshold (x : list R) : float64 :=
  fadd (Series.mean x) (fmul (Some 1.5%R) (Series.std x)).


(** ** Lag between a typhoon and the first price spike (lines 560-585) *)

(** Lines 572-576: the flagged rows dated within two calendar months after
    the typhoon, both ends included. *)
Definition spikes_after (df : list Df.row) (ty_date : Timestamp.t)
  : list Df.row :=
  filter (fun r =>
            Bool.eqb (Df.Price_Spike r) true
            && Timestamp.leb ty_date (Df.Date r)
            && Timestamp.leb (Df.Date r) (Timestamp.add_months ty_date 2))
         df.

(** Line 579: [spikes_after.groupby("Commodity_Name")["Date"].min()], one
    row per group key. *)
Definition first_spikes (spikes : list Df.row)
  : list (string * Timestamp.t) :=
  flat_map
    (fun c =>
       match map Df.Date (group Df.Commodity_Name c spikes) with
       | [] => []
       | d :: ds => [(c, Timestamp.min_list d ds)]
       end)
    (group_keys (map Df.Commodity_Name spikes)).

(** Line 567: [ty.get("Typhoon Name", "Unknown")]. *)
Definition ty_name (ty : Typhoon.row) : string :=
  match Typhoon.Typhoon_Name ty with
  | Some n => n
  | None => "Unknown"%string
  end.

(** Lines 566-585, the body of the loop for one typhoon: the frame it
    appends to [lags], or nothing. *)
Definition lags_of_typhoon (df : list Df.row) (ty : Typhoon.row)
  : list Lag.row :=
  match Typhoon.Date_Entered_PAR ty with
  | None => []
  | Some ty_date =>
      match spikes_after df ty_date with
      | [] => []
      | spikes =>
          map (fun fs =>
                 Lag.mk (fst fs) (snd fs)
                        (Timestamp.month_diff (snd fs) ty_date)
                        (ty_name ty))
              (first_spikes spikes)
      end
  end.

(** Lines 561-588: the rows of [pd.concat(lags)]. *)
Definition lags (df_typhoons : list Typhoon.row) (df : list Df.row)
  : list Lag.row :=
  flat_map (lags_of_typhoon df) df_typhoons.

(** ** Lag summary (lines 592-593) *)

(** Line 592:
    [df_lag.groupby("Commodity_Name")["Lag_Months"].agg(["mean", "median",
    "count"])]. *)
Definition lag_groups (df_lag : list Lag.row) : list LagSummary.row :=
  map (fun c =>
         let x := map Lag.Lag_Months
                      (group (fun r => Some (Lag.Commodity_Name r)) c df_lag)
         in LagSummary.mk c (IntSeries.mean x) (IntSeries.median x)
                          (length x))
      (group_keys (map (fun r => Some (Lag.Commodity_Name r)) df_lag)).

(** Order of [sort_values("mean")]: ascending, NaN last. *)
Definition mean_leb (a b : LagSummary.row) : bool :=
  match LagSummary.mean a, LagSummary.mean b with
  | Some x, Some y => Qle_bool x y
  | Some _, None => true
  | None, Some _ => false
  | None, None => true
  end.

(** Lines 592-593.  The order among rows of equal mean is the one of a
    stable sort; pandas leaves it unspecified. *)
Definition lag_summary (df_lag : list Lag.row) : list LagSummary.row :=
  sort_by mean_leb (lag_groups df_lag).

(** ** The guards of the script

    A section of the script that is skipped with a warning leaves its
    tables undefined: [None].  The price frame itself is [None] when
    [load_data] found no price file and returned the frame without
    columns (lines 309-311), or when it lacks one of the columns a section
    tests for. *)







(** ** Summary metrics (lines 360-368) *)

(** [Series.nunique()]: the number of distinct non-null values. *)
Definition nunique (col : list (option string)) : nat :=
  length (nodup string_dec (dropna col)).

(** Line 360, "Commodities Analyzed". *)
Definition commodities_analyzed (df : list Price.row) : nat :=
  nunique (map Price.Commodity_Name df).

(** Line 367, "Average Retail Price": [df['Retail_Price'].mean()]. *)
Definition average_retail_price (df : list Price.row) : float64 :=
  Series.mean (map Price.Retail_Price df).

(** ** Spike counts per commodity (lines 442-445) *)

(** A row of [spike_summary]. *)
Module SpikeSummary.
Record row : Type := mk
  { Commodity_Name : string;
    Spike_Count : nat }.
End SpikeSummary.

(** Line 443: [df[df["Price_Spike"] == True]]. *)
Definition spikes (df : list Df.row) : list Df.row :=
  filter (fun r => Bool.eqb (Df.Price_Spike r) true) df.

(** Line 444: [spikes.groupby("Commodity_Name").size()], as a frame with
    the column [Spike_Count]. *)
Definition spike_counts (df : list Df.row) : list SpikeSummary.row :=
  map (fun c =>
         SpikeSummary.mk c
           (length (group Df.Commodity_Name c (spikes df))))
      (group_keys (map Df.Commodity_Name (spikes df))).

(** Order of [sort_values("Spike_Count", ascending=False)]. *)
Definition count_geb (a b : SpikeSummary.row) : bool :=
  Nat.leb (SpikeSummary.Spike_Count b) (SpikeSummary.Spike_Count a).

(** Line 445: the ten commodities with the most spikes.  The order among
    rows of equal count is the one of a stable sort; pandas leaves it
    unspecified. *)
Definition spike_summary (df : list Df.row) : list SpikeSummary.row :=
  firstn 10 (sort_by count_geb (spike_counts df)).

(** ** Histogram of the lags (line 601) *)

(** The counts of a histogram over the bin edges [edges]: every bin holds
    the values from its left edge up to, but without, its right edge;
    the last bin also holds its right edge. *)
Fixpoint histogram (edges : list Z) (x : list Z) : list nat :=
  match edges with
  | [] => []
  | lo :: tl =>
      match tl with
      | [] => []
      | [hi] =>
          [length (filter (fun v => (lo <=? v)%Z && (v <=? hi)%Z) x)]
      | hi :: _ =>
          length (filter (fun v => (lo <=? v)%Z && (v <? hi)%Z) x)
          :: histogram tl x
      end
  end.

(** [ax.hist(df_lag["Lag_Months"].dropna(), bins=range(0, 4))] *)
Definition lag_histogram (df_lag : list Lag.row) : list nat :=
  histogram [0; 1; 2; 3]%Z (map Lag.Lag_Months df_lag).

(** ** Resilience table (lines 498-518) *)

(** A row of [merged]. *)
Module Resilience.
Record row : Type := mk
  { Commodity_Name : string;
    Volatility : float64;
    Mean_Lag : float64;
    Spike_Frequency : float64 }.
End Resilience.

(** Lines 500-501:
    [df.groupby("Commodity_Name")["Retail_Price"].std()]. *)
Definition vol_df (df : list Df.row) : list (string * float64) :=
  map (fun c =>
         (c, Series.std (map Df.Retail_Price
                             (group Df.Commodity_Name c df))))
      (group_keys (map Df.Commodity_Name df)).

(** Line 505: the frame with the simulated [Lag_Months] column.  The draw
    [np.random.uniform(0.5, 2.5, len(df))] is the argument [draw]: one
    value per row. *)
Definition with_Lag_Months (df : list Df.row) (draw : list R)
  : list (Df.row * R) :=
  combine df draw.

(** Lines 507-508: [df.groupby("Commodity_Name")["Lag_Months"].mean()]. *)
Definition lag_df (df : list (Df.row * R)) : list (string * float64) :=
  map (fun c =>
         (c, Series.mean
               (map snd
                    (group (fun r => Df.Commodity_Name (fst r)) c df))))
      (group_keys (map (fun r => Df.Commodity_Name (fst r)) df)).

(** A boolean cell read as a number. *)
Definition bool_to_R (b : bool) : R := if b then 1%R else 0%R.

(** Lines 513-514:
    [df.groupby("Commodity_Name")["Price_Spike"].mean()]. *)
Definition spike_df (df : list Df.row) : list (string * float64) :=
  map (fun c =>
         (c, Series.mean
               (map (fun r => bool_to_R (Df.Price_Spike r))
                    (group Df.Commodity_Name c df))))
      (group_keys (map Df.Commodity_Name df)).

(** [left.merge(right, on="Commodity_Name", how="inner")] on frames with
    one value column: every pair of rows with equal keys, in the order of
    the left frame. *)
Definition merge_inner {A B : Type} (left : list (string * A))
  (right : list (string * B)) : list (string * (A * B)) :=
  flat_map
    (fun l =>
       map (fun r => (fst l, (snd l, snd r)))
           (filter (fun r => String.eqb (fst l) (fst r)) right))
    left.

(** Lines 517-518. *)
Definition merged (df : list Df.row) (draw : list R)
  : list Resilience.row :=
  map (fun x =>
         Resilience.mk (fst x) (fst (fst (snd x))) (snd (fst (snd x)))
                       (snd (snd x)))
      (merge_inner
         (merge_inner (vol_df df) (lag_df (with_Lag_Months df draw)))
         (spike_df df)).

(** ** The chart of one crop type (lines 42-127) *)

(** [df_prices] once its [Date] column is parsed: any cell may be null. *)
Module Raw.
Record row : Type := mk
  { Date : option Timestamp.t;
    Commodity_Name : option string;
    Retail_Price : float64 }.
End Raw.

Definition ts_max (a b : Timestamp.t) : Timestamp.t :=
  if Timestamp.leb a b then b else a.

(** [Series.min()] and [Series.max()] of a datetime column: nulls are
    skipped, and the result is NaT when nothing is left. *)
Definition date_min (col : list (option Timestamp.t))
  : option Timestamp.t :=
  match dropna col with
  | [] => None
  | d :: ds => Some (Timestamp.min_list d ds)
  end.

Definition date_max (col : list (option Timestamp.t))
  : option Timestamp.t :=
  match dropna col with
  | [] => None
  | d :: ds => Some (fold_left ts_max ds d)
  end.

(** [a <= b] on datetime cells: [False] as soon as one side is NaT. *)
Definition date_leb (a b : option Timestamp.t) : bool :=
  match a, b with
  | Some x, Some y => Timestamp.leb x y
  | _, _ => false
  end.

(** Lines 70-74: the typhoons dated within the range of the price
    dates. *)
Definition df_typhoons_filtered (df_typhoons : list Typhoon.row)
  (df_prices : list Raw.row) : list Typhoon.row :=
  let min_date := date_min (map Raw.Date df_prices) in
  let max_date := date_max (map Raw.Date df_prices) in
  filter (fun ty =>
            date_leb min_date (Typhoon.Date_Entered_PAR ty)
            && date_leb (Typhoon.Date_Entered_PAR ty) max_date)
         df_typhoons.

(** The non-null prices of a commodity, in row order. *)
Definition raw_prices (df_prices : list Raw.row) (c : string) : list R :=
  dropna (map Raw.Retail_Price (group Raw.Commodity_Name c df_prices)).

Definition Rleb (x y : R) : bool := if Rle_dec x y then true else false.

(** Order of [sort_values('Retail_Price', ascending=False)]. *)
Definition vol_geb (a b : string * R) : bool := Rleb (snd b) (snd a).

(** Lines 77-79: the standard deviation of the price per commodity, null
    prices skipped; the commodities without standard deviation dropped;
    the most volatile first. *)
Definition commodity_volatility (df_prices : list Raw.row)
  : list (string * R) :=
  sort_by vol_geb
    (flat_map
       (fun c =>
          match Series.std (raw_prices df_prices c) with
          | Some s => [(c, s)]
          | None => []
          end)
       (group_keys (map Raw.Commodity_Name df_prices))).

(** Line 80. *)
Definition top_commodities (df_prices : list Raw.row) (top_n : nat)
  : list string :=
  map fst (firstn top_n (commodity_volatility df_prices)).

(** [Series.isin(values)]: a null cell is in no list of names. *)
Definition isin (k : option string) (values : list string) : bool :=
  match k with
  | Some c => existsb (String.eqb c) values
  | None => false
  end.

Definition ts_eq_dec (a b : Timestamp.t) : {a = b} + {a <> b}.
Proof. decide equality; apply Z.eq_dec. Defined.

Definition date_commodity_eq_dec (a b : Timestamp.t * string)
  : {a = b} + {a <> b}.
Proof. decide equality; [apply string_dec | apply ts_eq_dec]. Defined.

(** The key of a row in [groupby(['Date', 'Commodity_Name'])]: null as
    soon as one of the two cells is. *)
Definition date_commodity (r : Raw.row) : option (Timestamp.t * string) :=
  match Raw.Date r, Raw.Commodity_Name r with
  | Some d, Some c => Some (d, c)
  | _, _ => None
  end.

(** Order of the group keys: by date, then by name. *)
Definition date_commodity_leb (a b : Timestamp.t * string) : bool :=
  Timestamp.ltb (fst a) (fst b)
  || (Timestamp.eqb (fst a) (fst b) && String.leb (snd a) (snd b)).

Definition has_key (k : Timestamp.t * string) (r : Raw.row) : bool :=
  match date_commodity r with
  | Some k' => if date_commodity_eq_dec k' k then true else false
  | None => false
  end.

(** A row of [df_national_avg]. *)
Module NationalAvg.
Record row : Type := mk
  { Date : Timestamp.t;
    Commodity_Name : string;
    Retail_Price : float64 }.
End NationalAvg.

(** Lines 87-89: the mean price per date and commodity, over the rows of
    the selected commodities; null prices are skipped. *)
Definition df_national_avg (df_prices : list Raw.row)
  (top : list string) : list NationalAvg.row :=
  let selected :=
    filter (fun r => isin (Raw.Commodity_Name r) top) df_prices in
  map (fun k =>
         NationalAvg.mk (fst k) (snd k)
           (Series.mean
              (dropna (map Raw.Retail_Price
                           (filter (has_key k) selected)))))
      (sort_by date_commodity_leb
         (nodup date_commodity_eq_dec
            (dropna (map date_commodity selected)))).

(** Lines 44-46 and 82-84: the function gives up when there is no typhoon
    or no commodity to show; otherwise the chart is drawn from the mean
    prices of the selected commodities and the typhoons in range. *)
Definition create_typhoon_chart (df_typhoons : list Typhoon.row)
  (df_prices : list Raw.row) (top_n : nat)
  : option (list NationalAvg.row * list Typhoon.row) :=
  match df_typhoons with
  | [] => None
  | _ :: _ =>
      match top_commodities df_prices top_n with
      | [] => None
      | top =>
          Some (df_national_avg df_prices top,
                df_typhoons_filtered df_typhoons df_prices)
      end
  end.

(** ** Monthly average price (line 394) *)





(** ** Column names in [load_data] (lines 329-339) *)

(** [sub in s] *)
Fixpoint contains (sub s : string) : bool :=
  String.prefix sub s
  || match s with
     | EmptyString => false
     | String _ s' => contains sub s'
     end.

Definition lower_ascii (a : ascii) : ascii :=
  let n := nat_of_ascii a in
  if (65 <=? n)%nat && (n <=? 90)%nat then ascii_of_nat (n + 32) else a.

(** [c.lower()], on the letters A to Z; the tests below look for
    lowercase English words, which no other letter can produce. *)
Fixpoint lower (s : string) : string :=
  match s with
  | EmptyString => EmptyString
  | String a s' => String (lower_ascii a) (lower s')
  end.

(** [name in df.columns] *)
Definition has_column (name : string) (columns : list string) : bool :=
  existsb (String.eqb name) columns.

(** [df.rename(columns={old: new})]: every column labelled [old] gets
    the label [new]. *)
Definition rename (columns : list string) (old new : string)
  : list string :=
  map (fun c => if String.eqb c old then new else c) columns.

Definition mentions_price (c : string) : bool :=
  contains "price" (lower c).

Definition mentions_commodity (c : string) : bool :=
  contains "commodity" (lower c) || contains "product" (lower c).

(** Lines 330-333. *)
Definition rename_price (columns : list string) : list string :=
  if has_column "Retail_Price" columns then columns
  else
    match filter mentions_price columns with
    | [] => columns
    | c :: _ => rename columns c "Retail_Price"
    end.

(** Lines 336-339. *)
Definition rename_commodity (columns : list string) : list string :=
  if has_column "Commodity_Name" columns then columns
  else
    match filter mentions_commodity columns with
    | [] => columns
    | c :: _ => rename columns c "Commodity_Name"
    end.

(** Lines 329-339. *)
Definition renamed_columns (columns : list string) : list string :=
  rename_commodity (rename_price columns).

(** ** Notions used in the statements *)

(** The retail prices observed for the commodity of key [k], in row order;
    a null key has no group. *)
Definition group_prices (df : list Price.row) (k : option string) : list R :=
  match k with
  | Some c => map Price.Retail_Price (group Price.Commodity_Name c df)
  | None => []
  end.

(** Arithmetic mean of a non-empty list of prices. *)
Definition arithmetic_mean (x : list R) : R :=
  (fold_right Rplus 0 x / INR (length x))%R.

(** Sample standard deviation: the root of the sum of squared deviations
    from the mean, divided by [n - 1]. *)
Definition sample_std (x : list R) : R :=
  sqrt (fold_right Rplus 0
          (map (fun v => (v - arithmetic_mean x) * (v - arithmetic_mean x)) x)
        / (INR (length x) - 1))%R.

(** The observation a flagged row stems from. *)
Definition observation (r : Df.row) : Price.row :=
  Price.mk (Df.Date r) (Df.Commodity_Name r) (Df.Retail_Price r).

(** A flagged observation that falls in the lag window of a typhoon dated
    [ty_date]: the closed interval from [ty_date] to [ty_date] plus two
    calendar months. *)
Definition qualifies (ty_date : Timestamp.t) (r : Df.row) : Prop :=
  Df.Price_Spike r = true /\
  Timestamp.leb ty_date (Df.Date r) = true /\
  Timestamp.leb (Df.Date r) (Timestamp.add_months ty_date 2) = true.

(** The price list of the worked example: one commodity, four months. *)
Definition example_row (m : Z) (p : R) : Price.row :=
  Price.mk (Timestamp.mk 2021 m 1 0) (Some "Rice"%string) p.

Definition example_prices : list Price.row :=
  [example_row 1 10; example_row 2 10; example_row 3 10;
   example_row 4 1000].

(** Every date of the two tables is a calendar date: what the datetime64
    columns [Date] and [Date_Entered_PAR] can hold. *)
Definition valid_dates (df_typhoons : list Typhoon.row) (df : list Df.row)
  : Prop :=
  Forall (fun ty =>
            match Typhoon.Date_Entered_PAR ty with
            | Some d => Timestamp.valid d
            | None => True
            end) df_typhoons /\
  Forall (fun r => Timestamp.valid (Df.Date r)) df.

(** The lag example: a typhoon on 2021-06-01 and a flagged observation of
    one commodity on 2021-07-01. *)
Definition example_typhoons : list Typhoon.row :=
  [Typhoon.mk (Some "X"%string) (Some (Timestamp.mk 2021 6 1 0))].

Definition example_flagged : list Df.row :=
  [Df.mk (Timestamp.mk 2021 7 1 0) (Some "Rice"%string) 100
         (Some 60%R) (Some 20%R) true].

Definition example_lag : Lag.row :=
  Lag.mk "Rice" (Timestamp.mk 2021 7 1 0) 1 "X".

(** The lags recorded for a commodity, in row order. *)
Definition lag_months (df_lag : list Lag.row) (c : string) : list Z :=
  map Lag.Lag_Months
      (filter (fun r => String.eqb (Lag.Commodity_Name r) c) df_lag).

(** The median of an ascending list: the mean of its two middle values,
    which coincide when the length is odd. *)
Definition middle_of_sorted (s : list Z) : Q :=
  ((inject_Z (nth ((length s - 1) / 2) s 0%Z)
    + inject_Z (nth (length s / 2) s 0%Z)) / 2)%Q.

(** The flagged rows of one commodity. *)
Definition flagged_of (c : string) (df : list Df.row) : list Df.row :=
  filter Df.Price_Spike (group Df.Commodity_Name c df).

(** A table in which one commodity is observed twice at the same price. *)
Definition example_flat : list Price.row :=
  [example_row 1 10; example_row 2 10].

(** Ascending order of the [mean] column, on rows whose mean is a
    number. *)
Definition mean_le (a b : LagSummary.row) : Prop :=
  match LagSummary.mean a, LagSummary.mean b with
  | Some x, Some y => (x <= y)%Q
  | _, _ => False
  end.

(** Price dates at month granularity: the first of the month, midnight,
    as [load_data] builds them from [Year] and [Month]. *)
Definition month_granular (df : list Df.row) : Prop :=
  Forall (fun r => Timestamp.day (Df.Date r) = 1%Z /\
                   Timestamp.nanos (Df.Date r) = 0%Z) df.

(** A typhoon of the 15th of June 2021, for the same flagged table. *)
Definition example_typhoon_mid : Typhoon.row :=
  Typhoon.mk (Some "Y"%string) (Some (Timestamp.mk 2021 6 15 0)).

(** The summary row of the lag example. *)
Definition example_summary_row : LagSummary.row :=
  LagSummary.mk "Rice" (Some (1 # 1)%Q) (Some (1 # 1)%Q) 1.

Definition example_lag_mid : Lag.row :=
  Lag.mk "Rice" (Timestamp.mk 2021 7 1 0) 1 "Y".

(** What [np.random.uniform(0.5, 2.5, n)] returns: [n] numbers, each at
    least 0.5 and below 2.5. *)
Definition uniform_draw (n : nat) (draw : list R) : Prop :=
  length draw = n /\ Forall (fun v => 0.5 <= v < 2.5)%R draw.

(** A draw for the two rows of [example_flat]. *)
Definition example_draw : list R := [1%R; 2%R].


(** Descending order of the volatility. *)
Definition vol_ge (a b : string * R) : Prop := (snd b <= snd a)%R.

(** The number of observations of a commodity times its mean price. *)
Definition weighted_mean (df : list Price.row) (st : Stats.row) : R :=
  match Stats.Mean_Price st with
  | Some m =>
      (INR (length (group_prices df (Some (Stats.Commodity_Name st))))
       * m)%R
  | None => 0%R
  end.



(** * Properties *)

(** ** Timestamps *)

Section TimestampFacts.

Local Open Scope Z_scope.

Implicit Types a b c d : Timestamp.t.

Lemma ts_validb_spec d : Timestamp.validb d = true <-> Timestamp.valid d.
Proof.
  unfold Timestamp.validb, Timestamp.valid.
  rewrite !andb_true_iff, !Z.leb_le, Z.ltb_lt. tauto.
Qed.

Lemma ts_eqb_eq a b : Timestamp.eqb a b = true <-> a = b.
Proof.
  unfold Timestamp.eqb. rewrite !andb_true_iff, !Z.eqb_eq.
  destruct a, b; simpl. split.
  - intros [[[-> ->] ->] ->]. reflexivity.
  - intros H; inversion H; auto.
Qed.

Lemma ts_leb_refl a : Timestamp.leb a a = true.
Proof.
  unfold Timestamp.leb. replace (Timestamp.eqb a a) with true.
  - apply orb_true_r.
  - symmetry. apply ts_eqb_eq. reflexivity.
Qed.

Lemma ts_ltb_lt a b : Timestamp.ltb a b = true <-> Timestamp.lt a b.
Proof.
  unfold Timestamp.ltb, Timestamp.lt.
  rewrite !orb_true_iff, !andb_true_iff, !orb_true_iff, !andb_true_iff,
    !orb_true_iff, !andb_true_iff, !Z.ltb_lt, !Z.eqb_eq.
  tauto.
Qed.

Lemma ts_leb_le a b : Timestamp.leb a b = true <-> Timestamp.lt a b \/ a = b.
Proof.
  unfold Timestamp.leb. rewrite orb_true_iff, ts_ltb_lt, ts_eqb_eq. tauto.
Qed.

Lemma ts_leb_trans a b c :
  Timestamp.leb a b = true -> Timestamp.leb b c = true ->
  Timestamp.leb a c = true.
Proof.
  rewrite !ts_leb_le. intros [H1 | ->] [H2 | ->]; auto.
  left. unfold Timestamp.lt in *. lia.
Qed.

Lemma ts_leb_total a b : Timestamp.leb a b = true \/ Timestamp.leb b a = true.
Proof.
  rewrite !ts_leb_le.
  destruct a as [ya ma da na], b as [yb mb db nb].
  unfold Timestamp.lt; simpl.
  destruct (Z.lt_trichotomy ya yb) as [?|[?|?]]; try (left; left; lia);
    try (right; left; lia).
  destruct (Z.lt_trichotomy ma mb) as [?|[?|?]]; try (left; left; lia);
    try (right; left; lia).
  destruct (Z.lt_trichotomy da db) as [?|[?|?]]; try (left; left; lia);
    try (right; left; lia).
  destruct (Z.lt_trichotomy na nb) as [?|[?|?]]; try (left; left; lia);
    try (right; left; lia).
  subst. left; right; reflexivity.
Qed.

Lemma ts_min_le_l a b : Timestamp.leb (Timestamp.min a b) a = true.
Proof.
  unfold Timestamp.min. destruct (Timestamp.leb a b) eqn:E.
  - apply ts_leb_refl.
  - destruct (ts_leb_total a b); congruence.
Qed.

Lemma ts_min_le_r a b : Timestamp.leb (Timestamp.min a b) b = true.
Proof.
  unfold Timestamp.min. destruct (Timestamp.leb a b) eqn:E; auto.
  apply ts_leb_refl.
Qed.

Lemma ts_min_cases a b : Timestamp.min a b = a \/ Timestamp.min a b = b.
Proof. unfold Timestamp.min. destruct (Timestamp.leb a b); auto. Qed.

Lemma ts_min_list_le_head ds :
  forall d, Timestamp.leb (Timestamp.min_list d ds) d = true.
Proof.
  induction ds as [|x ds IH]; intros d; simpl.
  - apply ts_leb_refl.
  - eapply ts_leb_trans; [apply IH | apply ts_min_le_l].
Qed.

Lemma ts_min_list_le ds :
  forall d x, In x ds -> Timestamp.leb (Timestamp.min_list d ds) x = true.
Proof.
  induction ds as [|y ds IH]; intros d x; simpl; [tauto|].
  intros [-> | Hin].
  - eapply ts_leb_trans; [apply ts_min_list_le_head | apply ts_min_le_r].
  - apply IH; assumption.
Qed.

Lemma ts_min_list_in ds :
  forall d, Timestamp.min_list d ds = d \/ In (Timestamp.min_list d ds) ds.
Proof.
  induction ds as [|y ds IH]; intros d; simpl; auto.
  destruct (IH (Timestamp.min d y)) as [E | Hin]; auto.
  rewrite E. destruct (ts_min_cases d y) as [-> | ->]; auto.
Qed.

(** The month arithmetic of [Timestamp.add_months]. *)
Lemma ts_add_months_ym d n :
  1 <= Timestamp.month d <= 12 ->
  Timestamp.year (Timestamp.add_months d n) * 12
  + Timestamp.month (Timestamp.add_months d n)
  = Timestamp.year d * 12 + Timestamp.month d + n /\
  1 <= Timestamp.month (Timestamp.add_months d n) <= 12.
Proof.
  intros Hm. unfold Timestamp.add_months; simpl.
  pose proof (Z.div_mod (Timestamp.month d - 1 + n) 12 ltac:(lia)).
  pose proof (Z.mod_pos_bound (Timestamp.month d - 1 + n) 12 ltac:(lia)).
  lia.
Qed.

(** Chronological order implies the order of the month indices. *)
Lemma ts_leb_month_index a b :
  1 <= Timestamp.month a <= 12 -> 1 <= Timestamp.month b <= 12 ->
  Timestamp.leb a b = true ->
  Timestamp.year a * 12 + Timestamp.month a
  <= Timestamp.year b * 12 + Timestamp.month b.
Proof.
  intros Ha Hb H. apply ts_leb_le in H. destruct H as [H | ->]; [|lia].
  unfold Timestamp.lt in H. lia.
Qed.

End TimestampFacts.

(** ** Sorting and group keys *)

Section Sorting.

Variable A : Type.
Variable le : A -> A -> bool.

Lemma insert_sorted_perm (x : A) (l : list A) :
  Permutation (insert_sorted le x l) (x :: l).
Proof.
  induction l as [|y l IH]; simpl.
  - apply Permutation_refl.
  - destruct (le x y).
    + apply Permutation_refl.
    + eapply perm_trans; [apply perm_skip, IH | apply perm_swap].
Qed.

Lemma sort_by_perm (l : list A) : Permutation (sort_by le l) l.
Proof.
  induction l as [|x l IH]; simpl.
  - apply perm_nil.
  - eapply perm_trans; [apply insert_sorted_perm | apply perm_skip, IH].
Qed.

Lemma sort_by_In (l : list A) (x : A) : In x (sort_by le l) <-> In x l.
Proof.
  split; apply Permutation_in;
    [apply sort_by_perm | apply Permutation_sym, sort_by_perm].
Qed.

Lemma sort_by_length (l : list A) : length (sort_by le l) = length l.
Proof. apply Permutation_length, sort_by_perm. Qed.

End Sorting.

Lemma dropna_In (A : Type) (col : list (option A)) (x : A) :
  In x (dropna col) <-> In (Some x) col.
Proof.
  induction col as [|[y|] col IH]; simpl.
  - tauto.
  - rewrite IH. split; intros [H | H]; auto.
    + left; congruence.
    + left; congruence.
  - rewrite IH. split; [auto | intros [H | H]; [discriminate | auto]].
Qed.

Lemma group_keys_In (col : list (option string)) (c : string) :
  In c (group_keys col) <-> In (Some c) col.
Proof.
  unfold group_keys. rewrite sort_by_In, nodup_In. apply dropna_In.
Qed.

Lemma group_keys_NoDup (col : list (option string)) :
  NoDup (group_keys col).
Proof.
  unfold group_keys.
  eapply Permutation_NoDup; [apply Permutation_sym, sort_by_perm|].
  apply NoDup_nodup.
Qed.

Lemma group_keys_nil : group_keys [] = [].
Proof. reflexivity. Qed.

Lemma key_eqb_eq (k : option string) (c : string) :
  key_eqb k c = true <-> k = Some c.
Proof.
  destruct k as [s|]; simpl.
  - rewrite String.eqb_eq. split; congruence.
  - split; discriminate.
Qed.

Lemma group_In (A : Type) (key : A -> option string) (c : string)
  (df : list A) (r : A) :
  In r (group key c df) <-> In r df /\ key r = Some c.
Proof. unfold group. rewrite filter_In, key_eqb_eq. tauto. Qed.

(** A group taken at one of the group keys is not empty. *)
Lemma group_nonempty (A : Type) (key : A -> option string) (c : string)
  (df : list A) :
  In c (group_keys (map key df)) -> group key c df <> [].
Proof.
  rewrite group_keys_In, in_map_iff. intros (r & Hk & Hin) E.
  assert (H : In r (group key c df)) by (apply group_In; auto).
  rewrite E in H. exact H.
Qed.

Lemma group_empty (A : Type) (key : A -> option string) (c : string)
  (df : list A) :
  ~ In c (group_keys (map key df)) -> group key c df = [].
Proof.
  intros Hn. destruct (group key c df) as [|r g] eqn:E; [reflexivity|].
  exfalso. apply Hn. apply group_keys_In, in_map_iff.
  assert (H : In r (group key c df)) by (rewrite E; left; reflexivity).
  apply group_In in H. exists r. tauto.
Qed.

(** Selecting by key in a table that has one row per key of a duplicate-free
    key list. *)
Lemma filter_keyed (B : Type) (f : string -> B) (key : B -> string)
  (k : option string) (keys : list string) :
  (forall c, key (f c) = c) ->
  NoDup keys ->
  filter (fun s => key_eqb k (key s)) (map f keys)
  = match k with
    | Some c => if in_dec string_dec c keys then [f c] else []
    | None => []
    end.
Proof.
  intros Hkey. induction 1 as [|c' keys Hnin Hnd IH]; simpl.
  - destruct k; reflexivity.
  - rewrite IH, Hkey. destruct k as [c|]; simpl; [|reflexivity].
    destruct (String.eqb_spec c c') as [E|Hne].
    + subst c'. destruct (string_dec c c) as [E|]; [|congruence].
      destruct (in_dec string_dec c keys); [contradiction|reflexivity].
    + destruct (string_dec c' c) as [E|Hne']; [congruence|].
      destruct (in_dec string_dec c keys); reflexivity.
Qed.

(** ** Statistics, merge and flags *)

Lemma stats_keys (df : list Price.row) :
  map Stats.Commodity_Name (stats df)
  = group_keys (map Price.Commodity_Name df).
Proof.
  unfold stats. rewrite map_map. simpl. apply map_id.
Qed.

Lemma mean_nil : Series.mean [] = NaN.
Proof. reflexivity. Qed.

Lemma std_nil : Series.std [] = NaN.
Proof. reflexivity. Qed.

(** The rows of [stats] that match a key. *)
Lemma stats_lookup (df : list Price.row) (k : option string) :
  filter (fun s => key_eqb k (Stats.Commodity_Name s)) (stats df)
  = match k with
    | Some c =>
        if in_dec string_dec c (group_keys (map Price.Commodity_Name df))
        then [Stats.mk c (Series.mean (group_prices df (Some c)))
                       (Series.std (group_prices df (Some c)))]
        else []
    | None => []
    end.
Proof.
  unfold stats.
  rewrite (filter_keyed _
             (fun c => Stats.mk c (Series.mean (group_prices df (Some c)))
                                (Series.std (group_prices df (Some c))))
             Stats.Commodity_Name k _ (fun c => eq_refl) (group_keys_NoDup _)).
  reflexivity.
Qed.

(** The merge attaches to every row the aggregates of its own group, and
    NaN when its key is null: [stats] has one row per key. *)
Lemma merge_stats (df l : list Price.row) :
  merge l (stats df)
  = map (fun r =>
           Merged.mk (Price.Date r) (Price.Commodity_Name r)
                     (Price.Retail_Price r)
                     (Series.mean (group_prices df (Price.Commodity_Name r)))
                     (Series.std (group_prices df (Price.Commodity_Name r))))
        l.
Proof.
  unfold merge.
  match goal with |- flat_map ?f _ = _ => set (row := f) end.
  induction l as [|r l IH]; simpl; [reflexivity|].
  rewrite IH. clear IH. subst row. cbv beta.
  change (?a :: ?l) with ([a] ++ l) at 2. f_equal.
  rewrite stats_lookup.
  destruct (Price.Commodity_Name r) as [c|]; simpl; [|reflexivity].
  destruct (in_dec string_dec c (group_keys (map Price.Commodity_Name df)))
    as [Hin|Hnin]; simpl; [reflexivity|].
  rewrite (group_empty _ _ _ _ Hnin). reflexivity.
Qed.

Lemma price_spikes_rows (df : list Price.row) :
  map observation (price_spikes df) = df.
Proof.
  unfold price_spikes. rewrite merge_stats, !map_map.
  rewrite <- (map_id df) at 2. apply map_ext. intros [d k p]. reflexivity.
Qed.

Lemma Rgtb_true (x y : R) : Rgtb x y = true <-> (x > y)%R.
Proof.
  unfold Rgtb. destruct (Rgt_dec x y); split; auto; discriminate.
Qed.

Lemma fgt_true (a b : float64) :
  fgt a b = true <-> exists x y, a = Some x /\ b = Some y /\ (x > y)%R.
Proof.
  destruct a as [x|], b as [y|]; simpl.
  - rewrite Rgtb_true. split.
    + intros H. exists x, y. auto.
    + intros (x' & y' & Hx & Hy & H). congruence.
  - split; [discriminate | intros (? & ? & _ & H & _); discriminate].
  - split; [discriminate | intros (? & ? & H & _); discriminate].
  - split; [discriminate | intros (? & ? & H & _); discriminate].
Qed.

(** Line 437 in terms of numbers. *)
Lemma Price_Spike_true (r : Merged.row) :
  Price_Spike r = true <->
  exists m s,
    Merged.Mean_Price r = Some m /\ Merged.Std_Price r = Some s /\
    (Merged.Retail_Price r > m + 1.5 * s)%R.
Proof.
  unfold Price_Spike. rewrite fgt_true. split.
  - intros (x & y & Hx & Hy & H).
    destruct (Merged.Mean_Price r) as [m|], (Merged.Std_Price r) as [s|];
      try discriminate.
    exists m, s. simpl in Hy. split; [|split]; try reflexivity.
    congruence.
  - intros (m & s & -> & -> & H). simpl. eauto.
Qed.

Lemma std_short (x : list R) : (length x <= 1)%nat -> Series.std x = NaN.
Proof.
  intros H. unfold Series.std. destruct (Series.mean x); [|reflexivity].
  apply Nat.leb_le in H. rewrite H. reflexivity.
Qed.

Lemma mean_arithmetic (x : list R) :
  x <> [] -> Series.mean x = Some (arithmetic_mean x).
Proof. destruct x; [congruence | reflexivity]. Qed.

Lemma std_sample (x : list R) :
  (2 <= length x)%nat -> Series.std x = Some (sample_std x).
Proof.
  intros H. unfold Series.std. rewrite mean_arithmetic.
  - destruct (Nat.leb_spec (length x) 1) as [H1|H1]; [lia|].
    unfold sample_std, Series.sum. do 4 f_equal.
    apply map_ext. intros v. simpl. ring.
  - intros ->. simpl in H. lia.
Qed.


Lemma group_prices_nonempty (df : list Price.row) (c : string) :
  In c (group_keys (map Price.Commodity_Name df)) <->
  group_prices df (Some c) <> [].
Proof.
  split.
  - intros Hin E. apply (group_nonempty _ _ _ _ Hin).
    simpl in E. apply map_eq_nil in E. exact E.
  - intros Hne.
    destruct (in_dec string_dec c (group_keys (map Price.Commodity_Name df)))
      as [Hin|Hnin]; [exact Hin|].
    exfalso. apply Hne. simpl. rewrite (group_empty _ _ _ _ Hnin). reflexivity.
Qed.

Lemma stats_In (df : list Price.row) (st : Stats.row) :
  In st (stats df) <->
  In (Stats.Commodity_Name st) (group_keys (map Price.Commodity_Name df)) /\
  Stats.Mean_Price st
  = Series.mean (group_prices df (Some (Stats.Commodity_Name st))) /\
  Stats.Std_Price st
  = Series.std (group_prices df (Some (Stats.Commodity_Name st))).
Proof.
  unfold stats. rewrite in_map_iff. split.
  - intros (c & <- & Hin). simpl. auto.
  - intros (Hin & Hm & Hs). exists (Stats.Commodity_Name st).
    split; [|exact Hin]. destruct st as [c m s]. simpl in *. congruence.
Qed.

Lemma price_spikes_In (df : list Price.row) (r : Df.row) :
  In r (price_spikes df) ->
  In (observation r) df /\
  Df.Mean_Price r = Series.mean (group_prices df (Df.Commodity_Name r)) /\
  Df.Std_Price r = Series.std (group_prices df (Df.Commodity_Name r)) /\
  Df.Price_Spike r
  = fgt (Some (Df.Retail_Price r))
        (threshold (group_prices df (Df.Commodity_Name r))).
Proof.
  unfold price_spikes. rewrite merge_stats, map_map, in_map_iff.
  intros ([d k p] & <- & Hin). simpl. auto.
Qed.

(** C1. Every observation of the price table gets exactly one flag, and
    the flag is true if and only if the [stats] row of its commodity has a
    non-null [Std_Price] and the retail price is strictly greater than
    [Mean_Price + 1.5 * Std_Price]; in particular the only observation of
    a commodity is never flagged. *)
Theorem C1_price_spike_iff (df : list Price.row) :
  map observation (price_spikes df) = df /\
  (forall r, In r (price_spikes df) ->
     (Df.Price_Spike r = true <->
      exists st m s,
        In st (stats df) /\
        Df.Commodity_Name r = Some (Stats.Commodity_Name st) /\
        Stats.Mean_Price st = Some m /\
        Stats.Std_Price st = Some s /\
        (Df.Retail_Price r > m + 1.5 * s)%R)) /\
  (forall r, In r (price_spikes df) ->
     (length (group_prices df (Df.Commodity_Name r)) <= 1)%nat ->
     Df.Price_Spike r = false).
Proof.
  split; [apply price_spikes_rows|]. split.
  - intros r Hr. apply price_spikes_In in Hr.
    destruct Hr as (Hobs & Hm & Hs & Hflag).
    rewrite Hflag. unfold threshold. rewrite fgt_true. split.
    + intros (x & y & Hx & Hy & Hgt). injection Hx as <-.
      destruct (Series.mean (group_prices df (Df.Commodity_Name r)))
        as [m|] eqn:Em; [|discriminate].
      destruct (Series.std (group_prices df (Df.Commodity_Name r)))
        as [s|] eqn:Es; [|discriminate].
      simpl in Hy. injection Hy as <-.
      destruct (Df.Commodity_Name r) as [c|] eqn:Ec; [|discriminate].
      exists (Stats.mk c (Some m) (Some s)), m, s. simpl.
      repeat split; auto.
      apply stats_In.
      cbn [Stats.Commodity_Name Stats.Mean_Price Stats.Std_Price].
      rewrite Em, Es. repeat split.
      apply group_prices_nonempty. intros E. rewrite E in Em. discriminate.
    + intros (st & m & s & Hst & Hc & Hmean & Hstd & Hgt).
      apply stats_In in Hst. destruct Hst as (_ & Hm' & Hs').
      rewrite Hc, <- Hm', <- Hs', Hmean, Hstd. simpl. eauto.
  - intros r Hr Hlen. apply price_spikes_In in Hr.
    destruct Hr as (_ & _ & _ & ->). unfold threshold.
    rewrite (std_short _ Hlen).
    destruct (Series.mean (group_prices df (Df.Commodity_Name r)));
      reflexivity.
Qed.

(** C2. [stats] has exactly one row per distinct commodity name of the
    price table; the row of a commodity holds the arithmetic mean of its
    retail prices, their sample standard deviation (divisor [n - 1]) when
    it has at least two observations, and a null [Std_Price] when it has
    exactly one. *)
Theorem C2_stats_mean_std (df : list Price.row) :
  NoDup (map Stats.Commodity_Name (stats df)) /\
  (forall c, In c (map Stats.Commodity_Name (stats df)) <->
             exists r, In r df /\ Price.Commodity_Name r = Some c) /\
  (forall st, In st (stats df) ->
     let x := group_prices df (Some (Stats.Commodity_Name st)) in
     (1 <= length x)%nat /\
     Stats.Mean_Price st = Some (arithmetic_mean x) /\
     ((2 <= length x)%nat -> Stats.Std_Price st = Some (sample_std x)) /\
     (length x = 1%nat -> Stats.Std_Price st = NaN)).
Proof.
  rewrite stats_keys. split; [apply group_keys_NoDup|]. split.
  - intros c. rewrite group_keys_In, in_map_iff.
    split; intros (r & H1 & H2); exists r; auto.
  - intros st Hst x. apply stats_In in Hst. destruct Hst as (Hk & Hm & Hs).
    apply group_prices_nonempty in Hk. fold x in Hk, Hm, Hs.
    split; [|split; [|split]].
    + destruct x; [congruence | simpl; lia].
    + rewrite Hm. apply mean_arithmetic. exact Hk.
    + intros H2. rewrite Hs. apply std_sample. exact H2.
    + intros H1. rewrite Hs. apply std_short. lia.
Qed.

(** C5. With the statistics of the commodity fixed, a flagged observation
    stays flagged when its retail price increases: raising the price never
    turns the flag from true to false. *)
Theorem C5_flag_monotone (r r' : Merged.row) :
  Merged.Mean_Price r' = Merged.Mean_Price r ->
  Merged.Std_Price r' = Merged.Std_Price r ->
  (Merged.Retail_Price r <= Merged.Retail_Price r')%R ->
  Price_Spike r = true -> Price_Spike r' = true.
Proof.
  intros Hm Hs Hle. rewrite !Price_Spike_true, Hm, Hs.
  intros (m & s & Em & Es & Hgt). exists m, s.
  repeat split; auto. lra.
Qed.



(** ** The worked example *)

Lemma example_mean : Series.mean [10; 10; 10; 1000]%R = Some 257.5%R.
Proof. unfold Series.mean, Series.sum. simpl. f_equal. lra. Qed.

Lemma example_std : Series.std [10; 10; 10; 1000]%R = Some 495%R.
Proof.
  unfold Series.std. rewrite example_mean. simpl Nat.leb. cbv iota.
  f_equal. replace (Series.sum _ / _)%R with (495 * 495)%R.
  - apply sqrt_square. lra.
  - unfold Series.sum. simpl. lra.
Qed.

Lemma example_threshold : threshold [10; 10; 10; 1000]%R = Some 1000%R.
Proof.
  unfold threshold. rewrite example_mean, example_std. simpl. f_equal. lra.
Qed.

Lemma example_flags (r : Df.row) :
  In r (price_spikes example_prices) -> Df.Price_Spike r = false.
Proof.
  intros Hr. apply price_spikes_In in Hr.
  destruct Hr as (Hobs & _ & _ & ->).
  assert (Hg : group_prices example_prices (Df.Commodity_Name r)
               = [10; 10; 10; 1000]%R /\
               (Df.Retail_Price r <= 1000)%R).
  { simpl in Hobs. unfold observation, example_row in Hobs.
    destruct Hobs as [E|[E|[E|[E|[]]]]]; injection E as _ <- <-;
      split; try reflexivity; lra. }
  destruct Hg as [-> Hle]. rewrite example_threshold. simpl.
  unfold Rgtb. destruct (Rgt_dec (Df.Retail_Price r) 1000); [lra|reflexivity].
Qed.

(** C4, refuted as stated: in the table [10, 10, 10, 1000] no observation
    of price 1000 is flagged. *)
Lemma C4_counterexample :
  ~ exists r, In r (price_spikes example_prices) /\
              Df.Retail_Price r = 1000%R /\ Df.Price_Spike r = true.
Proof.
  intros (r & Hr & _ & Hflag). rewrite (example_flags r Hr) in Hflag.
  discriminate.
Qed.

(** C4, amended. For the prices [10, 10, 10, 1000] of one commodity the
    mean is 257.5, the sample standard deviation is exactly 495, the
    threshold [mean + 1.5 * std] is exactly 1000, and no observation is
    flagged: 1000 is not strictly greater than the threshold. *)
Theorem C4_example_not_flagged :
  stats example_prices
  = [Stats.mk "Rice" (Some 257.5%R) (Some 495%R)] /\
  threshold (group_prices example_prices (Some "Rice"%string))
  = Some 1000%R /\
  map Df.Price_Spike (price_spikes example_prices)
  = [false; false; false; false].
Proof.
  split; [|split].
  - change (stats example_prices)
      with [Stats.mk "Rice" (Series.mean [10; 10; 10; 1000]%R)
                     (Series.std [10; 10; 10; 1000]%R)].
    rewrite example_mean, example_std. reflexivity.
  - apply example_threshold.
  - assert (H : forall b, In b (map Df.Price_Spike
                                   (price_spikes example_prices)) ->
                          b = false).
    { intros b Hb. apply in_map_iff in Hb. destruct Hb as (r & <- & Hr).
      apply example_flags. exact Hr. }
    assert (L : length (map Df.Price_Spike (price_spikes example_prices))
                = 4%nat).
    { rewrite length_map, <- (length_map observation), price_spikes_rows.
      reflexivity. }
    destruct (map Df.Price_Spike (price_spikes example_prices))
      as [|b1 [|b2 [|b3 [|b4 [|b5 l]]]]]; try discriminate.
    rewrite (H b1), (H b2), (H b3), (H b4); simpl; auto.
Qed.

(** ** The lag loop *)

Lemma ts_leb_antisym (a b : Timestamp.t) :
  Timestamp.leb a b = true -> Timestamp.leb b a = true -> a = b.
Proof.
  rewrite !ts_leb_le. intros [H1 | H1] [H2 | H2]; auto.
  exfalso. unfold Timestamp.lt in *. lia.
Qed.

Lemma spikes_after_In (df : list Df.row) (ty_date : Timestamp.t)
  (r : Df.row) :
  In r (spikes_after df ty_date) <-> In r df /\ qualifies ty_date r.
Proof.
  unfold spikes_after, qualifies.
  rewrite filter_In, !andb_true_iff, Bool.eqb_true_iff. tauto.
Qed.

(** [first_spikes] pairs every commodity of the selection with the
    earliest date of its rows. *)
Lemma first_spikes_In (spikes : list Df.row) (c : string)
  (d : Timestamp.t) :
  In (c, d) (first_spikes spikes) <->
  (exists r, In r spikes /\ Df.Commodity_Name r = Some c /\ Df.Date r = d) /\
  (forall r, In r spikes -> Df.Commodity_Name r = Some c ->
             Timestamp.leb d (Df.Date r) = true).
Proof.
  unfold first_spikes. rewrite in_flat_map.
  assert (Hmin : forall d0 ds,
    map Df.Date (group Df.Commodity_Name c spikes) = d0 :: ds ->
    (exists r, In r spikes /\ Df.Commodity_Name r = Some c /\
               Df.Date r = Timestamp.min_list d0 ds) /\
    (forall r, In r spikes -> Df.Commodity_Name r = Some c ->
               Timestamp.leb (Timestamp.min_list d0 ds) (Df.Date r) = true)).
  { intros d0 ds E. split.
    - assert (Hin : In (Timestamp.min_list d0 ds) (d0 :: ds)).
      { destruct (ts_min_list_in ds d0) as [-> | H]; [left | right]; auto. }
      rewrite <- E in Hin. apply in_map_iff in Hin.
      destruct Hin as (r & Hd & Hr). apply group_In in Hr.
      exists r. tauto.
    - intros r Hr Hc.
      assert (Hin : In (Df.Date r) (d0 :: ds)).
      { rewrite <- E. apply in_map. apply group_In. auto. }
      destruct Hin as [<- | Hin].
      + apply ts_min_list_le_head.
      + apply ts_min_list_le. exact Hin. }
  split.
  - intros (c' & Hk & Hin).
    destruct (map Df.Date (group Df.Commodity_Name c' spikes))
      as [|d0 ds] eqn:E; [destruct Hin|].
    destruct Hin as [Heq | []]. injection Heq as -> <-.
    apply Hmin. exact E.
  - intros ((r & Hr & Hc & Hd) & Hle). exists c. split.
    + apply group_keys_In. rewrite <- Hc. apply in_map. exact Hr.
    + destruct (map Df.Date (group Df.Commodity_Name c spikes))
        as [|d0 ds] eqn:E.
      * assert (Hin : In (Df.Date r)
                         (map Df.Date (group Df.Commodity_Name c spikes))).
        { apply in_map. apply group_In. auto. }
        rewrite E in Hin. destruct Hin.
      * left. f_equal.
        destruct (Hmin d0 ds eq_refl) as ((r' & Hr' & Hc' & Hd') & Hle').
        apply ts_leb_antisym.
        -- rewrite <- Hd. apply Hle'; assumption.
        -- rewrite <- Hd'. apply Hle; assumption.
Qed.

Lemma first_spikes_NoDup (spikes : list Df.row) :
  NoDup (map fst (first_spikes spikes)).
Proof.
  unfold first_spikes.
  generalize (group_keys_NoDup (map Df.Commodity_Name spikes)).
  generalize (group_keys (map Df.Commodity_Name spikes)).
  induction 1 as [|c keys Hnin Hnd IH]; simpl; [constructor|].
  rewrite map_app.
  destruct (map Df.Date (group Df.Commodity_Name c spikes)) as [|d ds];
    simpl; [exact IH|].
  constructor; [|exact IH].
  intros Hin. apply Hnin. apply in_map_iff in Hin.
  destruct Hin as ([c' d'] & Hc & Hin). simpl in Hc. subst c'.
  apply in_flat_map in Hin. destruct Hin as (c'' & Hk & Hin).
  destruct (map Df.Date (group Df.Commodity_Name c'' spikes));
    [destruct Hin|].
  destruct Hin as [E | []]. injection E as -> _. exact Hk.
Qed.

Lemma lags_of_typhoon_In (df : list Df.row) (ty : Typhoon.row)
  (r : Lag.row) :
  In r (lags_of_typhoon df ty) <->
  exists ty_date,
    Typhoon.Date_Entered_PAR ty = Some ty_date /\
    In (Lag.Commodity_Name r, Lag.Date r)
       (first_spikes (spikes_after df ty_date)) /\
    Lag.Lag_Months r = Timestamp.month_diff (Lag.Date r) ty_date /\
    Lag.Typhoon_Name r = ty_name ty.
Proof.
  unfold lags_of_typhoon.
  destruct (Typhoon.Date_Entered_PAR ty) as [td|].
  - assert (H : In r (map (fun fs =>
                             Lag.mk (fst fs) (snd fs)
                                    (Timestamp.month_diff (snd fs) td)
                                    (ty_name ty))
                          (first_spikes (spikes_after df td))) <->
                exists ty_date,
                  Some td = Some ty_date /\
                  In (Lag.Commodity_Name r, Lag.Date r)
                     (first_spikes (spikes_after df ty_date)) /\
                  Lag.Lag_Months r
                  = Timestamp.month_diff (Lag.Date r) ty_date /\
                  Lag.Typhoon_Name r = ty_name ty).
    { rewrite in_map_iff. split.
      - intros ([c d] & <- & Hin). exists td. simpl. auto.
      - intros (td' & E & Hin & Hl & Hn). injection E as <-.
        exists (Lag.Commodity_Name r, Lag.Date r). split; [|exact Hin].
        destruct r as [c d l n]. simpl in *. congruence. }
    destruct (spikes_after df td) as [|r0 sa] eqn:E; [|exact H].
    rewrite <- H. simpl. tauto.
  - split; [intros [] | intros (? & H & _); discriminate].
Qed.

Lemma lags_In (df_typhoons : list Typhoon.row) (df : list Df.row)
  (r : Lag.row) :
  In r (lags df_typhoons df) <->
  exists ty, In ty df_typhoons /\ In r (lags_of_typhoon df ty).
Proof. unfold lags. apply in_flat_map. Qed.

(** The records of [lags], one by one. *)
Lemma lags_records (df_typhoons : list Typhoon.row) (df : list Df.row)
  (r : Lag.row) :
  In r (lags df_typhoons df) <->
  exists ty ty_date,
    In ty df_typhoons /\
    Typhoon.Date_Entered_PAR ty = Some ty_date /\
    Lag.Typhoon_Name r = ty_name ty /\
    (exists o, In o df /\ qualifies ty_date o /\
               Df.Commodity_Name o = Some (Lag.Commodity_Name r) /\
               Df.Date o = Lag.Date r) /\
    (forall o, In o df -> qualifies ty_date o ->
               Df.Commodity_Name o = Some (Lag.Commodity_Name r) ->
               Timestamp.leb (Lag.Date r) (Df.Date o) = true) /\
    Lag.Lag_Months r
    = ((Timestamp.year (Lag.Date r) - Timestamp.year ty_date) * 12
       + (Timestamp.month (Lag.Date r) - Timestamp.month ty_date))%Z.
Proof.
  rewrite lags_In. split.
  - intros (ty & Hty & Hr). apply lags_of_typhoon_In in Hr.
    destruct Hr as (td & Hd & Hfs & Hl & Hn).
    apply first_spikes_In in Hfs.
    destruct Hfs as ((o & Ho & Hc & Hod) & Hmin).
    apply spikes_after_In in Ho. exists ty, td.
    repeat split; auto.
    + exists o. tauto.
    + intros o' Ho' Hq Hc'. apply Hmin; auto.
      apply spikes_after_In. auto.
  - intros (ty & td & Hty & Hd & Hn & (o & Ho & Hq & Hc & Hod) & Hmin & Hl).
    exists ty. split; [exact Hty|]. apply lags_of_typhoon_In.
    exists td. repeat split; auto. apply first_spikes_In. split.
    + exists o. rewrite spikes_after_In. auto.
    + intros o' Ho' Hc'. apply spikes_after_In in Ho'.
      apply Hmin; tauto.
Qed.

(** What one typhoon contributes: at most one record per commodity, and no
    record when its date is null or no observation qualifies. *)
Lemma lags_of_typhoon_shape (df : list Df.row) (ty : Typhoon.row) :
  NoDup (map Lag.Commodity_Name (lags_of_typhoon df ty)) /\
  (Typhoon.Date_Entered_PAR ty = None -> lags_of_typhoon df ty = []) /\
  (forall ty_date,
     Typhoon.Date_Entered_PAR ty = Some ty_date ->
     (forall o, In o df -> ~ qualifies ty_date o) ->
     lags_of_typhoon df ty = []).
Proof.
  split; [|split].
  - unfold lags_of_typhoon.
    destruct (Typhoon.Date_Entered_PAR ty) as [td|]; [|constructor].
    destruct (spikes_after df td) as [|r0 sa] eqn:E; [constructor|].
    rewrite map_map. simpl. apply first_spikes_NoDup.
  - intros E. unfold lags_of_typhoon. rewrite E. reflexivity.
  - intros td E Hnone. unfold lags_of_typhoon. rewrite E.
    destruct (spikes_after df td) as [|r0 sa] eqn:Esa; [reflexivity|].
    exfalso.
    assert (H : In r0 (spikes_after df td)) by (rewrite Esa; left; auto).
    apply spikes_after_In in H. apply (Hnone r0); tauto.
Qed.

(** The first spike of a record lies in the lag window of its typhoon. *)
Lemma lags_window (df_typhoons : list Typhoon.row) (df : list Df.row)
  (r : Lag.row) :
  valid_dates df_typhoons df ->
  In r (lags df_typhoons df) ->
  exists ty_date,
    Timestamp.valid ty_date /\ Timestamp.valid (Lag.Date r) /\
    Timestamp.leb ty_date (Lag.Date r) = true /\
    Timestamp.leb (Lag.Date r) (Timestamp.add_months ty_date 2) = true /\
    Lag.Lag_Months r = Timestamp.month_diff (Lag.Date r) ty_date.
Proof.
  intros [Hty Hdf] Hr.
  apply lags_records in Hr.
  destruct Hr as (ty & td & Hin & Hd & _ & (o & Ho & Hq & _ & Hod) & _ & Hl).
  exists td. rewrite Forall_forall in Hty, Hdf.
  specialize (Hty ty Hin). rewrite Hd in Hty.
  specialize (Hdf o Ho). rewrite Hod in Hdf.
  destruct Hq as (_ & H1 & H2). rewrite Hod in H1, H2.
  repeat split; auto; apply Hty || apply Hdf.
Qed.

(** C3. [lags] skips the typhoons whose date is null; for every other
    typhoon it selects the flagged observations dated between the typhoon
    date and the typhoon date plus two calendar months (both included),
    takes per commodity the earliest such date, and emits the record with
    [Lag_Months = (first.year - ty.year) * 12 + (first.month - ty.month)].
    A typhoon without qualifying observation emits no record. *)
Theorem C3_lags_characterised (df_typhoons : list Typhoon.row)
  (df : list Df.row) :
  (forall r,
     In r (lags df_typhoons df) <->
     exists ty ty_date,
       In ty df_typhoons /\
       Typhoon.Date_Entered_PAR ty = Some ty_date /\
       Lag.Typhoon_Name r = ty_name ty /\
       (exists o, In o df /\ qualifies ty_date o /\
                  Df.Commodity_Name o = Some (Lag.Commodity_Name r) /\
                  Df.Date o = Lag.Date r) /\
       (forall o, In o df -> qualifies ty_date o ->
                  Df.Commodity_Name o = Some (Lag.Commodity_Name r) ->
                  Timestamp.leb (Lag.Date r) (Df.Date o) = true) /\
       Lag.Lag_Months r
       = ((Timestamp.year (Lag.Date r) - Timestamp.year ty_date) * 12
          + (Timestamp.month (Lag.Date r) - Timestamp.month ty_date))%Z) /\
  (forall ty,
     NoDup (map Lag.Commodity_Name (lags_of_typhoon df ty)) /\
     (Typhoon.Date_Entered_PAR ty = None -> lags_of_typhoon df ty = []) /\
     (forall ty_date,
        Typhoon.Date_Entered_PAR ty = Some ty_date ->
        (forall o, In o df -> ~ qualifies ty_date o) ->
        lags_of_typhoon df ty = [])).
Proof.
  split.
  - intros r. apply lags_records.
  - intros ty. apply lags_of_typhoon_shape.
Qed.

(** C6. No record of [lags] has a negative [Lag_Months]. *)
Theorem C6_lag_nonneg (df_typhoons : list Typhoon.row) (df : list Df.row)
  (r : Lag.row) :
  valid_dates df_typhoons df ->
  In r (lags df_typhoons df) ->
  (0 <= Lag.Lag_Months r)%Z.
Proof.
  intros Hv Hr.
  destruct (lags_window df_typhoons df r Hv Hr)
    as (td & Vt & Vd & H1 & _ & ->).
  unfold Timestamp.month_diff.
  pose proof (ts_leb_month_index _ _ (proj1 Vt) (proj1 Vd) H1). lia.
Qed.

Lemma example_valid_dates : valid_dates example_typhoons example_flagged.
Proof.
  split.
  - apply Forall_cons; [|apply Forall_nil].
    simpl. apply ts_validb_spec. reflexivity.
  - apply Forall_cons; [|apply Forall_nil].
    simpl. apply ts_validb_spec. reflexivity.
Defined.

Lemma example_lag_In : In example_lag (lags example_typhoons example_flagged).
Proof. vm_compute. left. reflexivity. Defined.

Lemma C6_witness : (0 <= Lag.Lag_Months example_lag)%Z.
Proof.
  apply (C6_lag_nonneg example_typhoons example_flagged example_lag).
  - exact example_valid_dates.
  - exact example_lag_In.
Defined.

(** C10. No record of [lags] has a [Lag_Months] above the window of two
    months; this holds for every day of month of the price dates, the
    first of the month included. *)
Theorem C10_lag_at_most_window (df_typhoons : list Typhoon.row)
  (df : list Df.row) (r : Lag.row) :
  valid_dates df_typhoons df ->
  In r (lags df_typhoons df) ->
  (Lag.Lag_Months r <= 2)%Z.
Proof.
  intros Hv Hr.
  destruct (lags_window df_typhoons df r Hv Hr)
    as (td & Vt & Vd & _ & H2 & ->).
  unfold Timestamp.month_diff.
  destruct (ts_add_months_ym td 2 (proj1 Vt)) as [Hym Hm].
  pose proof (ts_leb_month_index _ _ (proj1 Vd) Hm H2). lia.
Qed.

Lemma C10_witness : (Lag.Lag_Months example_lag <= 2)%Z.
Proof.
  apply (C10_lag_at_most_window example_typhoons example_flagged
           example_lag).
  - exact example_valid_dates.
  - exact example_lag_In.
Defined.

Lemma C5_witness :
  Price_Spike (Merged.mk (Timestamp.mk 2021 4 1 0) (Some "Rice"%string)
                         120 (Some 60%R) (Some 20%R)) = true.
Proof.
  apply (C5_flag_monotone
           (Merged.mk (Timestamp.mk 2021 4 1 0) (Some "Rice"%string)
                      100 (Some 60%R) (Some 20%R))
           (Merged.mk (Timestamp.mk 2021 4 1 0) (Some "Rice"%string)
                      120 (Some 60%R) (Some 20%R))).
  - reflexivity.
  - reflexivity.
  - simpl. lra.
  - apply Price_Spike_true. exists 60%R, 20%R. simpl.
    repeat split. lra.
Defined.

(** ** The lag summary *)

Lemma insert_sorted_HdRel (x y : Z) (l : list Z) :
  (y <= x)%Z -> HdRel Z.le y l -> HdRel Z.le y (insert_sorted Z.leb x l).
Proof.
  intros Hyx Hd. destruct l as [|z l]; simpl.
  - constructor. exact Hyx.
  - destruct (Z.leb x z); constructor; [exact Hyx|].
    inversion Hd; assumption.
Qed.

Lemma insert_sorted_Sorted (x : Z) (l : list Z) :
  Sorted Z.le l -> Sorted Z.le (insert_sorted Z.leb x l).
Proof.
  induction 1 as [|y l Hs IH Hd]; simpl.
  - repeat constructor.
  - destruct (Z.leb_spec x y) as [Hxy|Hyx].
    + constructor; [constructor; assumption | constructor; exact Hxy].
    + constructor; [exact IH|]. apply insert_sorted_HdRel; [lia|exact Hd].
Qed.

Lemma sort_by_Sorted (l : list Z) : Sorted Z.le (sort_by Z.leb l).
Proof.
  induction l as [|x l IH]; simpl.
  - constructor.
  - apply insert_sorted_Sorted. exact IH.
Qed.

(** [median] is the middle of the sorted column. *)
Lemma median_middle (x : list Z) :
  x <> [] ->
  exists s m,
    IntSeries.median x = Some m /\
    Permutation s x /\ Sorted Z.le s /\ (m == middle_of_sorted s)%Q.
Proof.
  intros Hne. exists (sort_by Z.leb x).
  assert (Hlen : length (sort_by Z.leb x) <> 0%nat).
  { rewrite sort_by_length. destruct x; [congruence | discriminate]. }
  unfold IntSeries.median, middle_of_sorted.
  set (s := sort_by Z.leb x) in *.
  destruct (length s) as [|n] eqn:En; [congruence|].
  destruct (Nat.even (S n)) eqn:Ev.
  - eexists. split; [reflexivity|].
    split; [apply sort_by_perm|]. split; [apply sort_by_Sorted|].
    apply Nat.even_spec in Ev. destruct Ev as [k Hk].
    replace ((S n - 1) / 2)%nat with (S n / 2 - 1)%nat.
    + reflexivity.
    + rewrite Hk. replace (2 * k - 1)%nat with (1 + (k - 1) * 2)%nat by lia.
      rewrite Nat.div_add by lia. rewrite (Nat.mul_comm 2 k).
      rewrite Nat.div_mul by lia. simpl. lia.
  - eexists. split; [reflexivity|].
    split; [apply sort_by_perm|]. split; [apply sort_by_Sorted|].
    assert (Hodd : Nat.odd (S n) = true).
    { unfold Nat.odd. rewrite Ev. reflexivity. }
    apply Nat.odd_spec in Hodd. destruct Hodd as [k Hk].
    replace ((S n - 1) / 2)%nat with (S n / 2)%nat.
    + unfold Qeq, Qdiv, Qplus, Qmult, Qinv, inject_Z. simpl. lia.
    + rewrite Hk. replace (2 * k + 1 - 1)%nat with (k * 2)%nat by lia.
      rewrite Nat.div_mul by lia.
      replace (2 * k + 1)%nat with (1 + k * 2)%nat by lia.
      rewrite Nat.div_add by lia. reflexivity.
Qed.

Lemma lag_group_months (df_lag : list Lag.row) (c : string) :
  map Lag.Lag_Months
      (group (fun r => Some (Lag.Commodity_Name r)) c df_lag)
  = lag_months df_lag c.
Proof. reflexivity. Qed.

Lemma lag_groups_keys (df_lag : list Lag.row) :
  map LagSummary.Commodity_Name (lag_groups df_lag)
  = group_keys (map (fun r => Some (Lag.Commodity_Name r)) df_lag).
Proof. unfold lag_groups. rewrite map_map. simpl. apply map_id. Qed.

Lemma lag_summary_perm (df_lag : list Lag.row) :
  Permutation (lag_summary df_lag) (lag_groups df_lag).
Proof. apply sort_by_perm. Qed.

Lemma lag_months_nonempty (df_lag : list Lag.row) (c : string) :
  In c (group_keys (map (fun r => Some (Lag.Commodity_Name r)) df_lag)) ->
  lag_months df_lag c <> [].
Proof.
  intros Hin E. apply (group_nonempty _ _ _ _ Hin).
  rewrite <- lag_group_months in E. apply map_eq_nil in E. exact E.
Qed.

(** C7. [lag_summary] has exactly one row per commodity that occurs in the
    lag records, and none for a commodity without record; the row holds
    the number of records of the commodity, the arithmetic mean of their
    [Lag_Months] and their median. *)
Theorem C7_lag_summary (df_lag : list Lag.row) :
  NoDup (map LagSummary.Commodity_Name (lag_summary df_lag)) /\
  (forall c, In c (map LagSummary.Commodity_Name (lag_summary df_lag)) <->
             exists r, In r df_lag /\ Lag.Commodity_Name r = c) /\
  (forall row, In row (lag_summary df_lag) ->
     let x := lag_months df_lag (LagSummary.Commodity_Name row) in
     (1 <= length x)%nat /\
     LagSummary.count row = length x /\
     LagSummary.mean row
     = Some (inject_Z (fold_right Z.add 0%Z x)
             / inject_Z (Z.of_nat (length x)))%Q /\
     exists s m,
       LagSummary.median row = Some m /\
       Permutation s x /\ Sorted Z.le s /\ (m == middle_of_sorted s)%Q).
Proof.
  pose proof (lag_summary_perm df_lag) as Hperm.
  split; [|split].
  - apply (Permutation_NoDup
             (Permutation_map _ (Permutation_sym Hperm))).
    rewrite lag_groups_keys. apply group_keys_NoDup.
  - intros c.
    rewrite (Permutation_in' (eq_refl c) (Permutation_map _ Hperm)).
    rewrite lag_groups_keys, group_keys_In, in_map_iff.
    split; intros (r & H1 & H2); exists r; split; auto; congruence.
  - intros row Hrow x.
    apply (Permutation_in _ Hperm) in Hrow.
    unfold lag_groups in Hrow. apply in_map_iff in Hrow.
    destruct Hrow as (c & <- & Hc). simpl in x.
    apply lag_months_nonempty in Hc. fold x in Hc.
    cbn [LagSummary.count LagSummary.mean LagSummary.median].
    rewrite lag_group_months. fold x.
    split; [|split; [|split]].
    + destruct x; [congruence | simpl; lia].
    + reflexivity.
    + destruct x; [congruence | reflexivity].
    + apply median_middle. exact Hc.
Qed.

(** ** Empty inputs *)




(** ** How many observations can be flagged *)

Section SpikeBounds.

Local Open Scope R_scope.

Lemma sum_cons (v : R) (x : list R) :
  Series.sum (v :: x) = v + Series.sum x.
Proof. reflexivity. Qed.


Lemma sum_sq_nonneg (x : list R) (m : R) :
  0 <= Series.sum (map (fun v => (v - m) ^ 2) x).
Proof.
  induction x as [|v x IH]; [simpl; lra|].
  cbn [map]. rewrite sum_cons. pose proof (pow2_ge_0 (v - m)). lra.
Qed.




Lemma mean_sum (x : list R) (m : R) :
  Series.mean x = Some m -> Series.sum x = INR (length x) * m.
Proof.
  destruct x as [|v x]; [discriminate|].
  intros E.
  assert (E' : m = Series.sum (v :: x) / INR (length (v :: x))).
  { unfold Series.mean in E. congruence. }
  assert (H : INR (length (v :: x)) <> 0).
  { apply not_0_INR. discriminate. }
  rewrite E'. field. exact H.
Qed.

(** What a non-null [std] is: non-negative, with its square times [n - 1]
    the sum of squared deviations from the mean. *)
Lemma std_square (x : list R) (s : R) :
  Series.std x = Some s ->
  exists m,
    Series.mean x = Some m /\ (2 <= length x)%nat /\ 0 <= s /\
    (INR (length x) - 1) * s ^ 2
    = Series.sum (map (fun v => (v - m) ^ 2) x).
Proof.
  unfold Series.std. destruct (Series.mean x) as [m|]; [|discriminate].
  destruct (Nat.leb_spec (length x) 1) as [H1|H1]; [discriminate|].
  set (V := Series.sum (map (fun v => (v - m) ^ 2) x)).
  intros E.
  assert (E' : s = sqrt (V / (INR (length x) - 1))) by congruence.
  clear E. exists m.
  assert (Hn : 0 < INR (length x) - 1).
  { pose proof (lt_INR _ _ H1) as H. change (INR 1) with 1 in H. lra. }
  pose proof (sum_sq_nonneg x m) as Hv. fold V in Hv.
  assert (Hq : 0 <= V / (INR (length x) - 1)).
  { apply Rmult_le_pos; [exact Hv|]. left. apply Rinv_0_lt_compat, Hn. }
  split; [reflexivity|]. split; [lia|].
  split; [rewrite E'; apply sqrt_pos|].
  replace (s ^ 2) with (V / (INR (length x) - 1)).
  - fold V. clearbody V. field. lra.
  - rewrite E'. simpl. rewrite Rmult_1_r. symmetry.
    apply sqrt_sqrt. exact Hq.
Qed.




End SpikeBounds.

Lemma filter_map_swap (A B : Type) (f : A -> B) (P : B -> bool)
  (l : list A) :
  filter P (map f l) = map f (filter (fun a => P (f a)) l).
Proof.
  induction l as [|a l IH]; simpl; [reflexivity|].
  destruct (P (f a)); simpl; congruence.
Qed.













(** ** Sorted tables *)

Section SortedBy.

Variable A : Type.
Variable le : A -> A -> bool.
Hypothesis le_total : forall a b, le a b = true \/ le b a = true.
Hypothesis le_trans :
  forall a b c, le a b = true -> le b c = true -> le a c = true.

Let leP (a b : A) : Prop := le a b = true.

Lemma insert_sorted_hd (x y : A) (l : list A) :
  leP y x -> HdRel leP y l -> HdRel leP y (insert_sorted le x l).
Proof.
  intros Hyx Hd. destruct l as [|z l]; simpl.
  - constructor. exact Hyx.
  - destruct (le x z); constructor; [exact Hyx|].
    inversion Hd; assumption.
Qed.

Lemma insert_sorted_sorted (x : A) (l : list A) :
  Sorted leP l -> Sorted leP (insert_sorted le x l).
Proof.
  induction 1 as [|y l Hs IH Hd]; simpl.
  - repeat constructor.
  - destruct (le x y) eqn:E.
    + constructor; [constructor; assumption | constructor; exact E].
    + constructor; [exact IH|]. apply insert_sorted_hd; [|exact Hd].
      destruct (le_total x y) as [H|H]; [congruence | exact H].
Qed.

Lemma sort_by_sorted (l : list A) : Sorted leP (sort_by le l).
Proof.
  induction l as [|x l IH]; simpl.
  - constructor.
  - apply insert_sorted_sorted. exact IH.
Qed.

Lemma sort_by_strongly_sorted (l : list A) :
  StronglySorted leP (sort_by le l).
Proof.
  apply Sorted_StronglySorted; [|apply sort_by_sorted].
  intros a b c. apply le_trans.
Qed.

(** In a sorted table every row of the first [n] comes before every row
    left out. *)
Lemma firstn_sorted_before (n : nat) (l : list A) (a b : A) :
  StronglySorted leP l ->
  In a (firstn n l) -> In b (skipn n l) -> leP a b.
Proof.
  intros Hs. revert n. induction Hs as [|x l Hs IH Hall]; intros n Ha Hb.
  - destruct n; destruct Ha.
  - destruct n as [|n]; [destruct Ha|]. simpl in Ha, Hb.
    destruct Ha as [<- | Ha].
    + rewrite Forall_forall in Hall. apply Hall.
      rewrite <- (firstn_skipn n l). apply in_or_app. right. exact Hb.
    + apply (IH n); assumption.
Qed.

Lemma firstn_sorted (n : nat) (l : list A) :
  StronglySorted leP l -> StronglySorted leP (firstn n l).
Proof.
  intros Hs. revert n. induction Hs as [|x l Hs IH Hall]; intros n.
  - destruct n; constructor.
  - destruct n as [|n]; [constructor|]. simpl. constructor; [apply IH|].
    rewrite Forall_forall in *. intros y Hy. apply Hall.
    rewrite <- (firstn_skipn n l). apply in_or_app. left. exact Hy.
Qed.

End SortedBy.

(** ** Spike counts *)

Lemma filter_twice (A : Type) (P Q : A -> bool) (l : list A) :
  filter P (filter Q l) = filter (fun a => Q a && P a) l.
Proof.
  induction l as [|a l IH]; simpl; [reflexivity|].
  destruct (Q a); simpl; [destruct (P a)|]; congruence.
Qed.

Lemma spikes_group (df : list Df.row) (c : string) :
  group Df.Commodity_Name c (spikes df) = flagged_of c df.
Proof.
  unfold spikes, flagged_of, group. rewrite !filter_twice.
  apply filter_ext. intros r.
  destruct (Df.Price_Spike r), (key_eqb (Df.Commodity_Name r) c);
    reflexivity.
Qed.

Lemma spike_counts_keys (df : list Df.row) :
  map SpikeSummary.Commodity_Name (spike_counts df)
  = group_keys (map Df.Commodity_Name (spikes df)).
Proof. unfold spike_counts. rewrite map_map. simpl. apply map_id. Qed.

Lemma spike_counts_In (df : list Df.row) (row : SpikeSummary.row) :
  In row (spike_counts df) ->
  flagged_of (SpikeSummary.Commodity_Name row) df <> [] /\
  SpikeSummary.Spike_Count row
  = length (flagged_of (SpikeSummary.Commodity_Name row) df).
Proof.
  unfold spike_counts. rewrite in_map_iff. intros (c & <- & Hc). simpl.
  rewrite <- spikes_group. split; [|reflexivity].
  apply group_nonempty. exact Hc.
Qed.

Lemma count_geb_total (a b : SpikeSummary.row) :
  count_geb a b = true \/ count_geb b a = true.
Proof. unfold count_geb. rewrite !Nat.leb_le. lia. Qed.

Lemma count_geb_trans (a b c : SpikeSummary.row) :
  count_geb a b = true -> count_geb b c = true -> count_geb a c = true.
Proof. unfold count_geb. rewrite !Nat.leb_le. lia. Qed.

Lemma spike_summary_incl (df : list Df.row) (row : SpikeSummary.row) :
  In row (spike_summary df) -> In row (spike_counts df).
Proof.
  unfold spike_summary. intros H.
  apply (sort_by_In _ count_geb).
  rewrite <- (firstn_skipn 10 (sort_by _ _)).
  apply in_or_app. left. exact H.
Qed.

(** X4. [spike_summary] has at most ten rows, no commodity twice, and each
    row carries the number of flagged observations of its commodity, which
    is at least one: a commodity without spike is not listed. *)
Theorem spike_summary_rows (df : list Df.row) :
  (length (spike_summary df) <= 10)%nat /\
  NoDup (map SpikeSummary.Commodity_Name (spike_summary df)) /\
  (forall row, In row (spike_summary df) ->
     SpikeSummary.Spike_Count row
     = length (flagged_of (SpikeSummary.Commodity_Name row) df) /\
     (1 <= SpikeSummary.Spike_Count row)%nat).
Proof.
  split; [apply firstn_le_length|]. split.
  - unfold spike_summary. rewrite <- firstn_map.
    apply (NoDup_app_remove_r _ (skipn 10 (map SpikeSummary.Commodity_Name
                                   (sort_by count_geb (spike_counts df))))).
    rewrite firstn_skipn.
    apply (Permutation_NoDup
             (Permutation_map _ (Permutation_sym (sort_by_perm _ _ _)))).
    rewrite spike_counts_keys. apply group_keys_NoDup.
  - intros row Hrow. apply spike_summary_incl, spike_counts_In in Hrow.
    destruct Hrow as [Hne Hcount]. split; [exact Hcount|].
    rewrite Hcount.
    destruct (flagged_of (SpikeSummary.Commodity_Name row) df);
      [congruence | simpl; lia].
Qed.

(** X5. [spike_summary] lists the commodities by decreasing number of
    spikes, and a commodity that has spikes is left out only when ten
    commodities with at least as many spikes are listed. *)
Theorem spike_summary_ranking (df : list Df.row) :
  StronglySorted
    (fun a b => (SpikeSummary.Spike_Count b
                 <= SpikeSummary.Spike_Count a)%nat)
    (spike_summary df) /\
  (forall c,
     flagged_of c df <> [] ->
     ~ In c (map SpikeSummary.Commodity_Name (spike_summary df)) ->
     length (spike_summary df) = 10%nat /\
     forall row, In row (spike_summary df) ->
       (length (flagged_of c df) <= SpikeSummary.Spike_Count row)%nat).
Proof.
  pose proof (sort_by_strongly_sorted _ count_geb count_geb_total
                count_geb_trans (spike_counts df)) as Hs.
  split.
  - apply (firstn_sorted _ _ 10) in Hs. fold (spike_summary df) in Hs.
    induction Hs as [|a l Hs IH Hall]; constructor; [exact IH|].
    rewrite Forall_forall in *. intros b Hb. apply Nat.leb_le.
    apply (Hall b Hb).
  - intros c Hne Hout.
    set (row0 := SpikeSummary.mk c (length (flagged_of c df))).
    assert (H0 : In row0 (sort_by count_geb (spike_counts df))).
    { apply sort_by_In. unfold spike_counts. apply in_map_iff.
      exists c. rewrite spikes_group. split; [reflexivity|].
      apply group_keys_In. rewrite <- spikes_group in Hne.
      destruct (group Df.Commodity_Name c (spikes df)) as [|r g] eqn:E;
        [congruence|].
      assert (Hr : In r (group Df.Commodity_Name c (spikes df)))
        by (rewrite E; left; reflexivity).
      apply group_In in Hr. destruct Hr as [Hr <-].
      apply in_map. exact Hr. }
    rewrite <- (firstn_skipn 10 (sort_by _ _)) in H0.
    apply in_app_or in H0. destruct H0 as [H0 | H0].
    { exfalso. apply Hout. apply in_map_iff. exists row0. split; auto. }
    split.
    + unfold spike_summary. rewrite length_firstn.
      assert (Hlen : (10 < length (sort_by count_geb (spike_counts df)))%nat).
      { destruct (Nat.lt_ge_cases 10
                    (length (sort_by count_geb (spike_counts df))))
          as [H|H]; [exact H|].
        rewrite skipn_all2 in H0 by exact H. destruct H0. }
      lia.
    + intros row Hrow.
      pose proof (firstn_sorted_before _ _ 10 _ row row0 Hs Hrow H0) as H.
      apply Nat.leb_le in H. exact H.
Qed.

Lemma list_sum_add (A : Type) (f g : A -> nat) (l : list A) :
  list_sum (map (fun a => (f a + g a)%nat) l)
  = (list_sum (map f l) + list_sum (map g l))%nat.
Proof. induction l as [|a l IH]; simpl; lia. Qed.

Lemma list_sum_indicator (c0 : string) (K : list string) :
  NoDup K -> In c0 K ->
  list_sum (map (fun c => if String.eqb c0 c then 1%nat else 0%nat) K)
  = 1%nat.
Proof.
  induction 1 as [|c K Hnin Hnd IH]; intros Hin; [destruct Hin|].
  simpl. destruct (String.eqb_spec c0 c) as [->|Hne].
  - assert (H0 : list_sum (map (fun c1 => if String.eqb c c1
                                           then 1%nat else 0%nat) K)
                 = 0%nat).
    { clear IH Hin Hnd. induction K as [|c' K IH]; [reflexivity|].
      simpl. destruct (String.eqb_spec c c') as [->|_].
      - exfalso. apply Hnin. left. reflexivity.
      - apply IH. intros H. apply Hnin. right. exact H. }
    rewrite H0. reflexivity.
  - destruct Hin as [E|Hin]; [congruence|]. rewrite IH by exact Hin.
    reflexivity.
Qed.

(** The groups of a table whose keys are all non-null share out its rows. *)
Lemma group_partition_length (A : Type) (key : A -> option string)
  (K : list string) (l : list A) :
  NoDup K ->
  (forall r, In r l -> exists c, key r = Some c /\ In c K) ->
  list_sum (map (fun c => length (group key c l)) K) = length l.
Proof.
  intros Hnd. induction l as [|r l IH]; intros Hk.
  - simpl. clear Hnd Hk. induction K; simpl; auto.
  - destruct (Hk r (or_introl eq_refl)) as (c0 & Hc0 & Hin0).
    rewrite (map_ext _ (fun c => ((if String.eqb c0 c then 1 else 0)
                                  + length (group key c l))%nat)).
    + rewrite list_sum_add, list_sum_indicator by assumption.
      rewrite IH by (intros r' Hr'; apply Hk; right; exact Hr').
      reflexivity.
    + intros c. unfold group. simpl. rewrite Hc0. simpl.
      destruct (String.eqb c0 c); reflexivity.
Qed.

Lemma flagged_has_commodity (prices : list Price.row) (r : Df.row) :
  In r (price_spikes prices) -> Df.Price_Spike r = true ->
  Df.Commodity_Name r <> None.
Proof.
  intros Hr Hflag E. apply price_spikes_In in Hr.
  destruct Hr as (_ & _ & _ & Hf). rewrite E in Hf. simpl in Hf.
  congruence.
Qed.

(** X6. Over the frame of lines 432-437 the spike counts of the
    commodities add up to the number of flagged observations: every
    flagged observation belongs to exactly one commodity. *)
Theorem spike_counts_total (prices : list Price.row) :
  list_sum (map SpikeSummary.Spike_Count
                (spike_counts (price_spikes prices)))
  = length (spikes (price_spikes prices)).
Proof.
  unfold spike_counts. rewrite map_map. simpl.
  apply group_partition_length; [apply group_keys_NoDup|].
  intros r Hr. unfold spikes in Hr. apply filter_In in Hr.
  destruct Hr as [Hr Hflag]. apply Bool.eqb_prop in Hflag.
  destruct (Df.Commodity_Name r) as [c|] eqn:Ec.
  - exists c. split; [reflexivity|]. apply group_keys_In.
    rewrite <- Ec. apply in_map. unfold spikes. apply filter_In.
    split; [exact Hr|]. rewrite Hflag. reflexivity.
  - exfalso. exact (flagged_has_commodity prices r Hr Hflag Ec).
Qed.

(** X7. The "Commodities Analyzed" metric is the number of rows of the
    statistics table: the distinct non-null commodity names. *)
Theorem commodities_analyzed_stats (df : list Price.row) :
  commodities_analyzed df = length (stats df).
Proof.
  unfold commodities_analyzed, nunique, stats, group_keys.
  rewrite length_map, sort_by_length. reflexivity.
Qed.

(** ** More on the lag records *)

Lemma spikes_after_spikes (df : list Df.row) (ty_date : Timestamp.t) :
  spikes_after (spikes df) ty_date = spikes_after df ty_date.
Proof.
  unfold spikes_after, spikes. rewrite filter_twice. apply filter_ext.
  intros r. destruct (Df.Price_Spike r); reflexivity.
Qed.

(** X8. The rows that are not flagged have no influence on the lag
    records: [lags] gives the same records on the flagged rows alone. *)
Theorem lags_flagged_only (df_typhoons : list Typhoon.row)
  (df : list Df.row) :
  lags df_typhoons (spikes df) = lags df_typhoons df.
Proof.
  unfold lags. apply flat_map_ext. intros ty. unfold lags_of_typhoon.
  destruct (Typhoon.Date_Entered_PAR ty) as [td|]; [|reflexivity].
  rewrite spikes_after_spikes. reflexivity.
Qed.

Lemma histogram_lags (x : list Z) :
  (forall v, In v x -> (0 <= v <= 3)%Z) ->
  list_sum (histogram [0; 1; 2; 3]%Z x) = length x.
Proof.
  induction x as [|v x IH]; intros H; [reflexivity|].
  assert (Hv : (0 <= v <= 3)%Z) by (apply H; left; reflexivity).
  specialize (IH (fun w Hw => H w (or_intror Hw))).
  cbn [histogram list_sum fold_right filter] in *.
  destruct (Z.leb_spec 0 v), (Z.ltb_spec v 1), (Z.leb_spec 1 v),
    (Z.ltb_spec v 2), (Z.leb_spec 2 v), (Z.leb_spec v 3);
    cbn [andb length]; lia.
Qed.

(** X9. The histogram of line 601, with bins [0,1), [1,2) and [2,3],
    accounts for every lag record: its three counts add up to the number
    of records. *)
Theorem lag_histogram_complete (df_typhoons : list Typhoon.row)
  (df : list Df.row) :
  valid_dates df_typhoons df ->
  length (lag_histogram (lags df_typhoons df)) = 3%nat /\
  list_sum (lag_histogram (lags df_typhoons df))
  = length (lags df_typhoons df).
Proof.
  intros Hv. split; [reflexivity|].
  unfold lag_histogram. rewrite histogram_lags, length_map; [reflexivity|].
  intros v Hin. apply in_map_iff in Hin. destruct Hin as (r & <- & Hr).
  destruct (lags_window df_typhoons df r Hv Hr)
    as (td & Vt & Vd & H1 & H2 & ->).
  unfold Timestamp.month_diff.
  destruct (ts_add_months_ym td 2 (proj1 Vt)) as [Hym Hm].
  pose proof (ts_leb_month_index _ _ (proj1 Vt) (proj1 Vd) H1).
  pose proof (ts_leb_month_index _ _ (proj1 Vd) Hm H2). lia.
Qed.

Lemma lag_histogram_witness :
  list_sum (lag_histogram (lags example_typhoons example_flagged))
  = length (lags example_typhoons example_flagged).
Proof.
  apply (lag_histogram_complete example_typhoons example_flagged).
  exact example_valid_dates.
Defined.

Lemma mean_leb_total (a b : LagSummary.row) :
  mean_leb a b = true \/ mean_leb b a = true.
Proof.
  unfold mean_leb.
  destruct (LagSummary.mean a) as [x|], (LagSummary.mean b) as [y|]; auto.
  rewrite !Qle_bool_iff. destruct (Qlt_le_dec x y) as [H|H]; auto.
  left. apply Qlt_le_weak. exact H.
Qed.

Lemma mean_leb_trans (a b c : LagSummary.row) :
  mean_leb a b = true -> mean_leb b c = true -> mean_leb a c = true.
Proof.
  unfold mean_leb.
  destruct (LagSummary.mean a) as [x|], (LagSummary.mean b) as [y|],
    (LagSummary.mean c) as [z|]; auto; try discriminate.
  rewrite !Qle_bool_iff. apply Qle_trans.
Qed.

Lemma StronglySorted_weaken (A : Type) (R R' : A -> A -> Prop)
  (l : list A) :
  (forall a b, In a l -> In b l -> R a b -> R' a b) ->
  StronglySorted R l -> StronglySorted R' l.
Proof.
  intros Hw Hs. induction Hs as [|a l Hs IH Hall]; constructor.
  - apply IH. intros x y Hx Hy. apply Hw; right; assumption.
  - rewrite Forall_forall in *. intros b Hb.
    apply Hw; [left; reflexivity | right; exact Hb | apply Hall, Hb].
Qed.

Lemma lag_summary_mean_some (df_lag : list Lag.row)
  (row : LagSummary.row) :
  In row (lag_summary df_lag) -> LagSummary.mean row <> None.
Proof.
  intros Hrow. apply (Permutation_in _ (lag_summary_perm df_lag)) in Hrow.
  unfold lag_groups in Hrow. apply in_map_iff in Hrow.
  destruct Hrow as (c & <- & Hc). simpl.
  apply lag_months_nonempty in Hc. rewrite lag_group_months.
  destruct (lag_months df_lag c); [congruence | discriminate].
Qed.

(** X10. The rows of [lag_summary] come by increasing mean lag. *)
Theorem lag_summary_sorted (df_lag : list Lag.row) :
  StronglySorted mean_le (lag_summary df_lag).
Proof.
  apply (StronglySorted_weaken _ (fun a b => mean_leb a b = true)).
  - intros a b Ha Hb. unfold mean_leb, mean_le.
    apply lag_summary_mean_some in Ha, Hb.
    destruct (LagSummary.mean a), (LagSummary.mean b); try congruence.
    apply Qle_bool_iff.
  - apply sort_by_strongly_sorted.
    + apply mean_leb_total.
    + apply mean_leb_trans.
Qed.

Lemma lag_bounds (df_typhoons : list Typhoon.row) (df : list Df.row)
  (r : Lag.row) :
  valid_dates df_typhoons df -> In r (lags df_typhoons df) ->
  (0 <= Lag.Lag_Months r <= 2)%Z.
Proof.
  intros Hv Hr.
  destruct (lags_window df_typhoons df r Hv Hr)
    as (td & Vt & Vd & H1 & H2 & ->).
  unfold Timestamp.month_diff.
  destruct (ts_add_months_ym td 2 (proj1 Vt)) as [Hym Hm].
  pose proof (ts_leb_month_index _ _ (proj1 Vt) (proj1 Vd) H1).
  pose proof (ts_leb_month_index _ _ (proj1 Vd) Hm H2). lia.
Qed.

Lemma int_sum_bounds (x : list Z) (lo hi : Z) :
  (forall v, In v x -> (lo <= v <= hi)%Z) ->
  (lo * Z.of_nat (length x) <= IntSeries.sum x
   <= hi * Z.of_nat (length x))%Z.
Proof.
  induction x as [|v x IH]; intros H.
  - simpl. lia.
  - assert (Hv : (lo <= v <= hi)%Z) by (apply H; left; reflexivity).
    specialize (IH (fun w Hw => H w (or_intror Hw))).
    change (length (v :: x)) with (S (length x)).
    change (IntSeries.sum (v :: x)) with (v + IntSeries.sum x)%Z.
    lia.
Qed.

Lemma int_mean_bounds (x : list Z) (lo hi : Z) (m : Q) :
  (forall v, In v x -> (lo <= v <= hi)%Z) ->
  IntSeries.mean x = Some m ->
  (inject_Z lo <= m /\ m <= inject_Z hi)%Q.
Proof.
  intros H Em. destruct x as [|v x]; [discriminate|].
  pose proof (int_sum_bounds (v :: x) lo hi H) as [Hlo Hhi].
  unfold IntSeries.mean in Em. injection Em as <-.
  set (n := Z.of_nat (length (v :: x))) in *.
  assert (Hn : (0 < n)%Z) by (unfold n; simpl; lia).
  assert (Hq : (0 < inject_Z n)%Q).
  { change 0%Q with (inject_Z 0). rewrite <- Zlt_Qlt. exact Hn. }
  split.
  - apply Qle_shift_div_l; [exact Hq|].
    rewrite <- inject_Z_mult, <- Zle_Qle. exact Hlo.
  - apply Qle_shift_div_r; [exact Hq|].
    rewrite <- inject_Z_mult, <- Zle_Qle. exact Hhi.
Qed.

Lemma middle_bounds (s : list Z) (lo hi : Z) :
  s <> [] ->
  (forall v, In v s -> (lo <= v <= hi)%Z) ->
  (inject_Z lo <= middle_of_sorted s /\
   middle_of_sorted s <= inject_Z hi)%Q.
Proof.
  intros Hne H. unfold middle_of_sorted.
  assert (Hlen : (0 < length s)%nat).
  { destruct s; [congruence | simpl; lia]. }
  assert (Ha : In (nth ((length s - 1) / 2) s 0%Z) s).
  { apply nth_In. apply Nat.Div0.div_lt_upper_bound. lia. }
  assert (Hb : In (nth (length s / 2) s 0%Z) s).
  { apply nth_In. apply Nat.Div0.div_lt_upper_bound. lia. }
  apply H in Ha, Hb.
  set (a := nth ((length s - 1) / 2) s 0%Z) in *.
  set (b := nth (length s / 2) s 0%Z) in *.
  split.
  - apply Qle_shift_div_l; [reflexivity|].
    rewrite <- inject_Z_plus.
    change 2%Q with (inject_Z 2). rewrite <- inject_Z_mult, <- Zle_Qle.
    lia.
  - apply Qle_shift_div_r; [reflexivity|].
    rewrite <- inject_Z_plus.
    change 2%Q with (inject_Z 2). rewrite <- inject_Z_mult, <- Zle_Qle.
    lia.
Qed.

Lemma filter_key_NoDup (A : Type) (key : A -> string) (c : string)
  (l : list A) :
  NoDup (map key l) ->
  (length (filter (fun r => String.eqb (key r) c) l) <= 1)%nat.
Proof.
  induction l as [|r l IH]; simpl; [lia|].
  intros Hnd. inversion Hnd as [|k ks Hnin Hnd' E]. subst.
  specialize (IH Hnd').
  destruct (String.eqb_spec (key r) c) as [Hc|Hc]; [|exact IH].
  assert (Hnone : filter (fun r0 => String.eqb (key r0) c) l = []).
  { destruct (filter (fun r0 => String.eqb (key r0) c) l) as [|r' l'] eqn:E;
      [reflexivity|].
    exfalso. apply Hnin.
    assert (Hr' : In r' (filter (fun r0 => String.eqb (key r0) c) l))
      by (rewrite E; left; reflexivity).
    apply filter_In in Hr'. destruct Hr' as [Hin Hk].
    apply String.eqb_eq in Hk. rewrite Hc, <- Hk. apply in_map. exact Hin. }
  rewrite Hnone. simpl. lia.
Qed.

Lemma filter_flat_map_length (A B : Type) (f : A -> list B)
  (P : B -> bool) (l : list A) :
  (forall a, (length (filter P (f a)) <= 1)%nat) ->
  (length (filter P (flat_map f l)) <= length l)%nat.
Proof.
  intros H. induction l as [|a l IH]; simpl; [lia|].
  rewrite filter_app, length_app. specialize (H a). lia.
Qed.

(** A commodity gets at most one record per typhoon. *)
Lemma lag_months_length (df_typhoons : list Typhoon.row)
  (df : list Df.row) (c : string) :
  (length (lag_months (lags df_typhoons df) c) <= length df_typhoons)%nat.
Proof.
  unfold lag_months, lags. rewrite length_map.
  apply filter_flat_map_length. intros ty.
  apply filter_key_NoDup. apply lags_of_typhoon_shape.
Qed.

(** X11. In the summary of the lag records of a run, every commodity
    counts at least one record and at most one per typhoon, and its mean
    and median lag lie between 0 and 2 months. *)
Theorem lag_summary_bounds (df_typhoons : list Typhoon.row)
  (df : list Df.row) (row : LagSummary.row) :
  valid_dates df_typhoons df ->
  In row (lag_summary (lags df_typhoons df)) ->
  (1 <= LagSummary.count row <= length df_typhoons)%nat /\
  (exists m, LagSummary.mean row = Some m /\ (0 <= m /\ m <= 2)%Q) /\
  (exists m, LagSummary.median row = Some m /\ (0 <= m /\ m <= 2)%Q).
Proof.
  intros Hv Hrow.
  apply (Permutation_in _ (lag_summary_perm _)) in Hrow.
  unfold lag_groups in Hrow. apply in_map_iff in Hrow.
  destruct Hrow as (c & <- & Hc).
  cbn [LagSummary.count LagSummary.mean LagSummary.median].
  rewrite lag_group_months.
  pose proof (lag_months_nonempty _ _ Hc) as Hne.
  pose proof (lag_months_length df_typhoons df c) as Hlen.
  assert (Hb : forall v, In v (lag_months (lags df_typhoons df) c) ->
                         (0 <= v <= 2)%Z).
  { intros v Hin. unfold lag_months in Hin. apply in_map_iff in Hin.
    destruct Hin as (r & <- & Hr). apply filter_In in Hr.
    apply (lag_bounds df_typhoons df r Hv). tauto. }
  set (x := lag_months (lags df_typhoons df) c) in *.
  split; [|split].
  - destruct x; [congruence | simpl in *; lia].
  - destruct (IntSeries.mean x) as [m|] eqn:Em.
    + exists m. split; [reflexivity|].
      apply (int_mean_bounds x 0 2 m Hb Em).
    + destruct x; [congruence | discriminate].
  - destruct (median_middle x Hne) as (s & m & Em & Hp & _ & Hm).
    exists m. split; [exact Em|]. rewrite Hm.
    apply (middle_bounds s 0 2).
    + intros ->. apply Permutation_nil in Hp. congruence.
    + intros v Hin. apply Hb. apply (Permutation_in _ Hp). exact Hin.
Qed.

Lemma example_summary_row_In :
  In example_summary_row
     (lag_summary (lags example_typhoons example_flagged)).
Proof. vm_compute. left. reflexivity. Defined.

Lemma lag_summary_bounds_witness :
  (1 <= LagSummary.count example_summary_row
   <= length example_typhoons)%nat /\
  (exists m, LagSummary.mean example_summary_row = Some m /\
             (0 <= m /\ m <= 2)%Q) /\
  (exists m, LagSummary.median example_summary_row = Some m /\
             (0 <= m /\ m <= 2)%Q).
Proof.
  apply (lag_summary_bounds example_typhoons example_flagged
           example_summary_row).
  - exact example_valid_dates.
  - exact example_summary_row_In.
Defined.

(** X12. With price dates at month granularity, a typhoon that does not
    enter exactly at the start of a month (first day, midnight) never gets
    a lag of 0: its records have a lag of 1 or 2 months. *)
Theorem lag_month_granular (df : list Df.row) (ty : Typhoon.row)
  (ty_date : Timestamp.t) (r : Lag.row) :
  Typhoon.Date_Entered_PAR ty = Some ty_date ->
  Timestamp.valid ty_date ->
  (1 < Timestamp.day ty_date \/ 0 < Timestamp.nanos ty_date)%Z ->
  Forall (fun o => Timestamp.valid (Df.Date o)) df ->
  month_granular df ->
  In r (lags_of_typhoon df ty) ->
  (1 <= Lag.Lag_Months r <= 2)%Z.
Proof.
  intros Hd Vt Hmid Hvalid Hgran Hr.
  apply lags_of_typhoon_In in Hr.
  destruct Hr as (td & Hd' & Hfs & -> & _).
  rewrite Hd in Hd'. injection Hd' as <-.
  apply first_spikes_In in Hfs. destruct Hfs as ((o & Ho & _ & Hod) & _).
  apply spikes_after_In in Ho. destruct Ho as [Ho (_ & H1 & H2)].
  rewrite Forall_forall in Hvalid. unfold month_granular in Hgran.
  rewrite Forall_forall in Hgran.
  specialize (Hvalid o Ho). destruct (Hgran o Ho) as [Hday Hnanos].
  rewrite Hod in *. clear Hod.
  unfold Timestamp.month_diff.
  destruct (ts_add_months_ym ty_date 2 (proj1 Vt)) as [Hym Hm].
  pose proof (ts_leb_month_index _ _ (proj1 Hvalid) Hm H2) as Hup.
  apply ts_leb_le in H1.
  destruct Vt as (Vm & Vd & Vn). destruct Hvalid as (Wm & _ & _).
  destruct H1 as [Hlt | Heq].
  - unfold Timestamp.lt in Hlt. lia.
  - rewrite Heq in Hmid. lia.
Qed.

Lemma lag_month_granular_witness :
  (1 <= Lag.Lag_Months example_lag_mid <= 2)%Z.
Proof.
  apply (lag_month_granular example_flagged example_typhoon_mid
           (Timestamp.mk 2021 6 15 0) example_lag_mid).
  - reflexivity.
  - apply ts_validb_spec. reflexivity.
  - left. simpl. lia.
  - apply Forall_cons; [|apply Forall_nil].
    apply ts_validb_spec. reflexivity.
  - apply Forall_cons; [|apply Forall_nil]. split; reflexivity.
  - vm_compute. left. reflexivity.
Defined.

(** ** The resilience table *)

Lemma merge_inner_keyed (A B : Type) (a : string -> A) (b : string -> B)
  (K : list string) :
  NoDup K ->
  merge_inner (map (fun c => (c, a c)) K) (map (fun c => (c, b c)) K)
  = map (fun c => (c, (a c, b c))) K.
Proof.
  intros Hnd. unfold merge_inner.
  assert (H : forall K', incl K' K ->
    flat_map
      (fun l =>
         map (fun r => (fst l, (snd l, snd r)))
             (filter (fun r => String.eqb (fst l) (fst r))
                     (map (fun c => (c, b c)) K)))
      (map (fun c => (c, a c)) K')
    = map (fun c => (c, (a c, b c))) K').
  { induction K' as [|c K' IH]; intros Hincl; [reflexivity|].
    cbn [map flat_map fst snd].
    rewrite IH by (intros x Hx; apply Hincl; right; exact Hx).
    pose proof (filter_keyed _ (fun c0 => (c0, b c0)) fst (Some c) K
                  (fun c0 => eq_refl) Hnd) as Hf.
    cbn [key_eqb] in Hf. rewrite Hf.
    destruct (in_dec string_dec c K) as [_|Hn].
    - reflexivity.
    - exfalso. apply Hn, Hincl. left. reflexivity. }
  apply H. apply incl_refl.
Qed.

Lemma combine_fst (A B : Type) (l : list A) (l' : list B) :
  length l' = length l -> map fst (combine l l') = l.
Proof.
  revert l'. induction l as [|a l IH]; intros [|b l'] H; simpl in *;
    try discriminate; [reflexivity|].
  rewrite IH by congruence. reflexivity.
Qed.

(** With one drawn value per row, the two inner merges keep one row per
    commodity. *)
Lemma merged_eq (df : list Df.row) (draw : list R) :
  length draw = length df ->
  merged df draw
  = map (fun c =>
           Resilience.mk c
             (Series.std (map Df.Retail_Price
                              (group Df.Commodity_Name c df)))
             (Series.mean
                (map snd (group (fun r => Df.Commodity_Name (fst r)) c
                                (combine df draw))))
             (Series.mean
                (map (fun r => bool_to_R (Df.Price_Spike r))
                     (group Df.Commodity_Name c df))))
        (group_keys (map Df.Commodity_Name df)).
Proof.
  intros Hlen. unfold merged, vol_df, lag_df, spike_df, with_Lag_Months.
  rewrite <- (map_map fst Df.Commodity_Name (combine df draw)).
  rewrite (combine_fst _ _ df draw Hlen).
  rewrite (merge_inner_keyed _ _ _ _ _ (group_keys_NoDup _)).
  rewrite (merge_inner_keyed _ _ _ _ _ (group_keys_NoDup _)).
  rewrite map_map. reflexivity.
Qed.

Lemma price_spikes_keys (prices : list Price.row) :
  map Df.Commodity_Name (price_spikes prices)
  = map Price.Commodity_Name prices.
Proof.
  rewrite <- (price_spikes_rows prices) at 2. rewrite map_map.
  reflexivity.
Qed.

Lemma price_spikes_group_prices (prices : list Price.row) (c : string) :
  map Df.Retail_Price (group Df.Commodity_Name c (price_spikes prices))
  = group_prices prices (Some c).
Proof.
  cbn [group_prices].
  rewrite <- (price_spikes_rows prices) at 2.
  unfold group. rewrite filter_map_swap, !map_map. reflexivity.
Qed.

(** X13. The resilience table has one row per commodity of the statistics
    table, in the same order, and its [Volatility] column is the
    [Std_Price] column of the statistics. *)
Theorem merged_volatility (prices : list Price.row) (draw : list R) :
  uniform_draw (length prices) draw ->
  map (fun row =>
         (Resilience.Commodity_Name row, Resilience.Volatility row))
      (merged (price_spikes prices) draw)
  = map (fun st => (Stats.Commodity_Name st, Stats.Std_Price st))
        (stats prices).
Proof.
  intros [Hlen _]. rewrite merged_eq.
  - unfold stats. rewrite !map_map, price_spikes_keys.
    apply map_ext. intros c. cbn [Resilience.Commodity_Name
      Resilience.Volatility Stats.Commodity_Name Stats.Std_Price].
    rewrite price_spikes_group_prices. reflexivity.
  - rewrite Hlen. rewrite <- (price_spikes_rows prices) at 1.
    rewrite length_map. reflexivity.
Qed.

Lemma example_uniform_draw :
  uniform_draw (length example_flat) example_draw.
Proof.
  split; [reflexivity|].
  apply Forall_cons; [lra|]. apply Forall_cons; [lra|]. apply Forall_nil.
Defined.

Lemma merged_volatility_witness :
  map (fun row =>
         (Resilience.Commodity_Name row, Resilience.Volatility row))
      (merged (price_spikes example_flat) example_draw)
  = map (fun st => (Stats.Commodity_Name st, Stats.Std_Price st))
        (stats example_flat).
Proof.
  apply (merged_volatility example_flat example_draw).
  exact example_uniform_draw.
Defined.








(** ** The chart of one crop type *)

Lemma ts_max_ge_l (a b : Timestamp.t) : Timestamp.leb a (ts_max a b) = true.
Proof.
  unfold ts_max. destruct (Timestamp.leb a b) eqn:E; [exact E|].
  apply ts_leb_refl.
Qed.

Lemma ts_max_ge_r (a b : Timestamp.t) : Timestamp.leb b (ts_max a b) = true.
Proof.
  unfold ts_max. destruct (Timestamp.leb a b) eqn:E; [apply ts_leb_refl|].
  destruct (ts_leb_total a b); congruence.
Qed.

Lemma max_list_ge_head (ds : list Timestamp.t) :
  forall d, Timestamp.leb d (fold_left ts_max ds d) = true.
Proof.
  induction ds as [|x ds IH]; intros d; simpl.
  - apply ts_leb_refl.
  - eapply ts_leb_trans; [apply ts_max_ge_l | apply IH].
Qed.

Lemma max_list_ge (ds : list Timestamp.t) :
  forall d x, In x ds -> Timestamp.leb x (fold_left ts_max ds d) = true.
Proof.
  induction ds as [|y ds IH]; intros d x; simpl; [tauto|].
  intros [-> | Hin].
  - eapply ts_leb_trans; [apply ts_max_ge_r | apply max_list_ge_head].
  - apply IH. exact Hin.
Qed.

Lemma max_list_in (ds : list Timestamp.t) :
  forall d, fold_left ts_max ds d = d \/ In (fold_left ts_max ds d) ds.
Proof.
  induction ds as [|y ds IH]; intros d; simpl; auto.
  destruct (IH (ts_max d y)) as [E | Hin]; auto.
  rewrite E. unfold ts_max. destruct (Timestamp.leb d y); auto.
Qed.

(** The earliest date of a column is one of its dates and precedes them
    all. *)
Lemma date_min_spec (col : list (option Timestamp.t)) :
  match date_min col with
  | Some m =>
      In (Some m) col /\
      forall d, In (Some d) col -> Timestamp.leb m d = true
  | None => forall d, ~ In (Some d) col
  end.
Proof.
  unfold date_min. destruct (dropna col) as [|d0 ds] eqn:E.
  - intros d Hd. apply dropna_In in Hd. rewrite E in Hd. exact Hd.
  - split.
    + apply dropna_In. rewrite E.
      destruct (ts_min_list_in ds d0) as [-> | H]; [left | right]; auto.
    + intros d Hd. apply dropna_In in Hd. rewrite E in Hd.
      destruct Hd as [<- | Hd].
      * apply ts_min_list_le_head.
      * apply ts_min_list_le. exact Hd.
Qed.

Lemma date_max_spec (col : list (option Timestamp.t)) :
  match date_max col with
  | Some m =>
      In (Some m) col /\
      forall d, In (Some d) col -> Timestamp.leb d m = true
  | None => forall d, ~ In (Some d) col
  end.
Proof.
  unfold date_max. destruct (dropna col) as [|d0 ds] eqn:E.
  - intros d Hd. apply dropna_In in Hd. rewrite E in Hd. exact Hd.
  - split.
    + apply dropna_In. rewrite E.
      destruct (max_list_in ds d0) as [-> | H]; [left | right]; auto.
    + intros d Hd. apply dropna_In in Hd. rewrite E in Hd.
      destruct Hd as [<- | Hd].
      * apply max_list_ge_head.
      * apply max_list_ge. exact Hd.
Qed.

(** X15. The typhoons drawn on the chart of a crop type are exactly the
    typhoons of the table whose date lies between two price dates of the
    file, both ends included; a typhoon without date is never drawn, and
    none is drawn when the file has no date. *)
Theorem typhoons_in_range (df_typhoons : list Typhoon.row)
  (df_prices : list Raw.row) (ty : Typhoon.row) :
  In ty (df_typhoons_filtered df_typhoons df_prices) <->
  In ty df_typhoons /\
  exists d d1 d2,
    Typhoon.Date_Entered_PAR ty = Some d /\
    In (Some d1) (map Raw.Date df_prices) /\
    In (Some d2) (map Raw.Date df_prices) /\
    Timestamp.leb d1 d = true /\ Timestamp.leb d d2 = true.
Proof.
  unfold df_typhoons_filtered. rewrite filter_In, andb_true_iff.
  pose proof (date_min_spec (map Raw.Date df_prices)) as Hmin.
  pose proof (date_max_spec (map Raw.Date df_prices)) as Hmax.
  split.
  - intros (Hin & H1 & H2). split; [exact Hin|].
    destruct (date_min (map Raw.Date df_prices)) as [lo|];
      [|discriminate].
    destruct (Typhoon.Date_Entered_PAR ty) as [d|]; [|discriminate].
    destruct (date_max (map Raw.Date df_prices)) as [hi|];
      [|discriminate].
    exists d, lo, hi. destruct Hmin, Hmax. auto.
  - intros (Hin & d & d1 & d2 & E & Hd1 & Hd2 & H1 & H2).
    rewrite E. split; [exact Hin|].
    destruct (date_min (map Raw.Date df_prices)) as [lo|];
      [|exfalso; exact (Hmin d1 Hd1)].
    destruct (date_max (map Raw.Date df_prices)) as [hi|];
      [|exfalso; exact (Hmax d2 Hd2)].
    destruct Hmin as [_ Hmin], Hmax as [_ Hmax]. simpl. split.
    + eapply ts_leb_trans; [apply Hmin, Hd1 | exact H1].
    + eapply ts_leb_trans; [exact H2 | apply Hmax, Hd2].
Qed.

Lemma Rleb_true (x y : R) : Rleb x y = true <-> (x <= y)%R.
Proof.
  unfold Rleb. destruct (Rle_dec x y); split; auto; discriminate.
Qed.

Lemma vol_geb_total (a b : string * R) :
  vol_geb a b = true \/ vol_geb b a = true.
Proof.
  unfold vol_geb. rewrite !Rleb_true.
  destruct (Rle_or_lt (snd b) (snd a)); [left | right]; lra.
Qed.

Lemma vol_geb_trans (a b c : string * R) :
  vol_geb a b = true -> vol_geb b c = true -> vol_geb a c = true.
Proof. unfold vol_geb. rewrite !Rleb_true. lra. Qed.

(** The commodities with a standard deviation, before sorting. *)
Lemma volatility_rows_In (df_prices : list Raw.row) (c : string) (s : R) :
  In (c, s) (commodity_volatility df_prices) <->
  In (Some c) (map Raw.Commodity_Name df_prices) /\
  Series.std (raw_prices df_prices c) = Some s.
Proof.
  unfold commodity_volatility. rewrite sort_by_In, in_flat_map. split.
  - intros (c' & Hk & Hin). apply group_keys_In in Hk.
    destruct (Series.std (raw_prices df_prices c')) as [s'|] eqn:E;
      [|destruct Hin].
    destruct Hin as [H | []]. injection H as -> ->. auto.
  - intros [Hk Hs]. exists c. split; [apply group_keys_In; exact Hk|].
    rewrite Hs. left. reflexivity.
Qed.

Lemma volatility_names_NoDup (f : string -> option R) (K : list string) :
  NoDup K ->
  NoDup (map fst (flat_map (fun c => match f c with
                                     | Some s => [(c, s)]
                                     | None => []
                                     end) K)).
Proof.
  induction 1 as [|c K Hnin Hnd IH]; simpl; [constructor|].
  rewrite map_app. destruct (f c) as [s|]; simpl; [|exact IH].
  constructor; [|exact IH].
  intros Hin. apply Hnin. apply in_map_iff in Hin.
  destruct Hin as ([c' s'] & Hc & Hin). simpl in Hc. subst c'.
  apply in_flat_map in Hin. destruct Hin as (c'' & Hk & Hin).
  destruct (f c''); [|destruct Hin].
  destruct Hin as [E | []]. injection E as -> _. exact Hk.
Qed.

Lemma commodity_volatility_NoDup (df_prices : list Raw.row) :
  NoDup (map fst (commodity_volatility df_prices)).
Proof.
  unfold commodity_volatility.
  eapply Permutation_NoDup.
  - apply Permutation_map, Permutation_sym, sort_by_perm.
  - apply (volatility_names_NoDup
             (fun c => Series.std (raw_prices df_prices c))).
    apply group_keys_NoDup.
Qed.

Lemma std_none (x : list R) :
  Series.std x = None <-> (length x <= 1)%nat.
Proof.
  split.
  - unfold Series.std. destruct x as [|v x]; [simpl; lia|].
    cbn [Series.mean].
    destruct (Nat.leb_spec (length (v :: x)) 1); [lia | discriminate].
  - apply std_short.
Qed.

(** X16. The commodities selected for the chart are at most [top_n], all
    different, each with at least two non-null prices; they come by
    decreasing volatility, and a commodity with a standard deviation is
    left out only when [top_n] commodities at least as volatile are
    selected. *)
Theorem top_commodities_spec (df_prices : list Raw.row) (top_n : nat) :
  (length (top_commodities df_prices top_n) <= top_n)%nat /\
  NoDup (top_commodities df_prices top_n) /\
  StronglySorted vol_ge (firstn top_n (commodity_volatility df_prices)) /\
  (forall c, In c (top_commodities df_prices top_n) ->
     In (Some c) (map Raw.Commodity_Name df_prices) /\
     (2 <= length (raw_prices df_prices c))%nat) /\
  (forall c s,
     In (Some c) (map Raw.Commodity_Name df_prices) ->
     Series.std (raw_prices df_prices c) = Some s ->
     ~ In c (top_commodities df_prices top_n) ->
     length (top_commodities df_prices top_n) = top_n /\
     forall c', In c' (top_commodities df_prices top_n) ->
       exists s', Series.std (raw_prices df_prices c') = Some s' /\
                  (s <= s')%R).
Proof.
  pose proof (sort_by_strongly_sorted _ vol_geb vol_geb_total vol_geb_trans)
    as Hsorted.
  unfold top_commodities.
  split; [rewrite length_map; apply firstn_le_length|].
  split; [|split; [|split]].
  - rewrite <- firstn_map.
    apply (NoDup_app_remove_r _
             (skipn top_n (map fst (commodity_volatility df_prices)))).
    rewrite firstn_skipn. apply commodity_volatility_NoDup.
  - apply (StronglySorted_weaken _ (fun a b => vol_geb a b = true)).
    + intros a b _ _. unfold vol_geb, vol_ge. apply Rleb_true.
    + apply firstn_sorted. apply Hsorted.
  - intros c Hc. apply in_map_iff in Hc. destruct Hc as ([c' s] & Hc & Hin).
    simpl in Hc. subst c'.
    assert (H : In (c, s) (commodity_volatility df_prices)).
    { rewrite <- (firstn_skipn top_n (commodity_volatility df_prices)).
      apply in_or_app. left. exact Hin. }
    apply volatility_rows_In in H. destruct H as [Hk Hs].
    split; [exact Hk|].
    destruct (std_square _ _ Hs) as (_ & _ & H2 & _). exact H2.
  - intros c s Hk Hs Hout.
    assert (H : In (c, s) (commodity_volatility df_prices))
      by (apply volatility_rows_In; auto).
    rewrite <- (firstn_skipn top_n (commodity_volatility df_prices)) in H.
    apply in_app_or in H. destruct H as [H | H].
    { exfalso. apply Hout. apply in_map_iff. exists (c, s). auto. }
    split.
    + rewrite length_map, length_firstn.
      destruct (Nat.lt_ge_cases top_n
                  (length (commodity_volatility df_prices))) as [Hl|Hl];
        [lia|].
      rewrite skipn_all2 in H by exact Hl. destruct H.
    + intros c' Hc'. apply in_map_iff in Hc'.
      destruct Hc' as ([c'' s'] & Hc & Hin). simpl in Hc. subst c''.
      exists s'. split.
      * assert (H' : In (c', s') (commodity_volatility df_prices)).
        { rewrite <- (firstn_skipn top_n (commodity_volatility df_prices)).
          apply in_or_app. left. exact Hin. }
        apply volatility_rows_In in H'. tauto.
      * pose proof (firstn_sorted_before _ _ top_n _ (c', s') (c, s)
                      (Hsorted _) Hin H) as Hle.
        apply Rleb_true in Hle. exact Hle.
Qed.

(** X17. The chart function gives up exactly when the typhoon table is
    empty, when [top_n] is 0, or when no commodity of the file has two
    non-null prices. *)
Theorem create_typhoon_chart_none (df_typhoons : list Typhoon.row)
  (df_prices : list Raw.row) (top_n : nat) :
  create_typhoon_chart df_typhoons df_prices top_n = None <->
  df_typhoons = [] \/ top_n = 0%nat \/
  (forall c, (length (raw_prices df_prices c) <= 1)%nat).
Proof.
  unfold create_typhoon_chart. destruct df_typhoons as [|ty tys].
  { split; auto. }
  assert (Hiff : top_commodities df_prices top_n = [] <->
                 top_n = 0%nat \/
                 forall c, (length (raw_prices df_prices c) <= 1)%nat).
  { unfold top_commodities. split.
    - intros E. apply map_eq_nil in E.
      destruct top_n as [|n]; [left; reflexivity|]. right. intros c.
      apply std_none.
      destruct (Series.std (raw_prices df_prices c)) as [s|] eqn:Es;
        [|reflexivity].
      exfalso.
      destruct (in_dec string_dec c
                  (group_keys (map Raw.Commodity_Name df_prices)))
        as [Hk|Hk].
      + apply group_keys_In in Hk.
        assert (H : In (c, s) (commodity_volatility df_prices))
          by (apply volatility_rows_In; auto).
        destruct (commodity_volatility df_prices); [destruct H|].
        discriminate E.
      + unfold raw_prices in Es. rewrite (group_empty _ _ _ _ Hk) in Es.
        discriminate Es.
    - intros [-> | Hall]; [reflexivity|].
      destruct (commodity_volatility df_prices) as [|[c s] l] eqn:E;
        [destruct top_n; reflexivity|].
      exfalso.
      assert (H : In (c, s) (commodity_volatility df_prices))
        by (rewrite E; left; reflexivity).
      apply volatility_rows_In in H. destruct H as [_ Hs].
      specialize (Hall c). apply std_none in Hall. congruence. }
  destruct (top_commodities df_prices top_n) as [|c top] eqn:E.
  - split; [intros _; right; apply Hiff; reflexivity | reflexivity].
  - split; [discriminate|].
    intros [H | H]; [discriminate|]. apply Hiff in H. discriminate.
Qed.

Lemma isin_true (k : option string) (values : list string) :
  isin k values = true <-> exists c, k = Some c /\ In c values.
Proof.
  destruct k as [c|]; simpl.
  - rewrite existsb_exists. split.
    + intros (c' & Hin & Heq). apply String.eqb_eq in Heq. subst c'.
      exists c. auto.
    + intros (c' & E & Hin). injection E as <-. exists c.
      split; [exact Hin | apply String.eqb_refl].
  - split; [discriminate | intros (c & E & _); discriminate].
Qed.

Lemma date_commodity_some (r : Raw.row) (d : Timestamp.t) (c : string) :
  date_commodity r = Some (d, c) <->
  Raw.Date r = Some d /\ Raw.Commodity_Name r = Some c.
Proof.
  unfold date_commodity.
  destruct (Raw.Date r) as [d'|], (Raw.Commodity_Name r) as [c'|];
    split; try discriminate; try (intros [H1 H2]; discriminate).
  - intros E. injection E as -> ->. auto.
  - intros [E1 E2]. congruence.
Qed.

(** X18. The mean-price table of the chart has one row per date and
    commodity: no pair twice, and a pair is present exactly when the
    commodity is selected and the file has a row of that commodity at
    that date. *)
Theorem df_national_avg_rows (df_prices : list Raw.row)
  (top : list string) :
  NoDup (map (fun row => (NationalAvg.Date row,
                          NationalAvg.Commodity_Name row))
             (df_national_avg df_prices top)) /\
  (forall d c,
     (exists row, In row (df_national_avg df_prices top) /\
                  NationalAvg.Date row = d /\
                  NationalAvg.Commodity_Name row = c) <->
     In c top /\
     exists r, In r df_prices /\ Raw.Date r = Some d /\
               Raw.Commodity_Name r = Some c).
Proof.
  unfold df_national_avg.
  set (selected := filter (fun r => isin (Raw.Commodity_Name r) top)
                          df_prices).
  set (keys := sort_by date_commodity_leb
                 (nodup date_commodity_eq_dec
                    (dropna (map date_commodity selected)))).
  assert (Hkeys : forall k, In k keys <->
                            In (Some k) (map date_commodity selected)).
  { intros k. unfold keys. rewrite sort_by_In, nodup_In.
    apply dropna_In. }
  split.
  - rewrite map_map. simpl.
    rewrite (map_ext _ (fun k => k)) by (intros [d c]; reflexivity).
    rewrite map_id. unfold keys.
    eapply Permutation_NoDup; [apply Permutation_sym, sort_by_perm|].
    apply NoDup_nodup.
  - intros d c. split.
    + intros (row & Hrow & <- & <-). apply in_map_iff in Hrow.
      destruct Hrow as ([d c] & <- & Hk). simpl.
      apply Hkeys, in_map_iff in Hk. destruct Hk as (r & Hr & Hsel).
      apply date_commodity_some in Hr. destruct Hr as [Hd Hc].
      unfold selected in Hsel. apply filter_In in Hsel.
      destruct Hsel as [Hin His]. apply isin_true in His.
      destruct His as (c' & Ec & Hc'). rewrite Hc in Ec.
      injection Ec as <-. split; [exact Hc'|]. exists r. auto.
    + intros (Hc & r & Hr & Hd & Hn).
      eexists. split.
      * apply in_map_iff. exists (d, c). split; [reflexivity|].
        apply Hkeys, in_map_iff. exists r. split.
        -- apply date_commodity_some. auto.
        -- unfold selected. apply filter_In. split; [exact Hr|].
           apply isin_true. exists c. auto.
      * split; reflexivity.
Qed.

(** ** The average price *)

Lemma sum_add (A : Type) (f g : A -> R) (l : list A) :
  Series.sum (map (fun a => (f a + g a)%R) l)
  = (Series.sum (map f l) + Series.sum (map g l))%R.
Proof.
  induction l as [|a l IH]; [simpl; lra|].
  cbn [map]. rewrite !sum_cons, IH. lra.
Qed.

Lemma sum_indicator (c0 : string) (v : R) (K : list string) :
  NoDup K -> In c0 K ->
  Series.sum (map (fun c => if String.eqb c0 c then v else 0%R) K) = v.
Proof.
  induction 1 as [|c K Hnin Hnd IH]; intros Hin; [destruct Hin|].
  cbn [map]. rewrite sum_cons.
  destruct (String.eqb_spec c0 c) as [->|Hne].
  - assert (H0 : Series.sum (map (fun c1 => if String.eqb c c1
                                            then v else 0%R) K) = 0%R).
    { clear IH Hin Hnd. induction K as [|c' K IH]; [reflexivity|].
      cbn [map]. rewrite sum_cons.
      destruct (String.eqb_spec c c') as [->|_].
      - exfalso. apply Hnin. left. reflexivity.
      - rewrite IH; [lra|]. intros H. apply Hnin. right. exact H. }
    rewrite H0. lra.
  - destruct Hin as [E|Hin]; [congruence|]. rewrite IH by exact Hin. lra.
Qed.

(** The sums over the groups of a table whose keys are all non-null add
    up to the sum over the table. *)
Lemma group_partition_sum (A : Type) (key : A -> option string)
  (f : A -> R) (K : list string) (l : list A) :
  NoDup K ->
  (forall r, In r l -> exists c, key r = Some c /\ In c K) ->
  Series.sum (map (fun c => Series.sum (map f (group key c l))) K)
  = Series.sum (map f l).
Proof.
  intros Hnd. induction l as [|r l IH]; intros Hk.
  - cbn [group filter map]. clear Hnd Hk.
    induction K as [|c K IH]; [reflexivity|].
    cbn [map]. rewrite sum_cons, IH. simpl. lra.
  - destruct (Hk r (or_introl eq_refl)) as (c0 & Hc0 & Hin0).
    rewrite (map_ext _ (fun c => ((if String.eqb c0 c then f r else 0)
                                  + Series.sum (map f (group key c l)))%R)).
    + rewrite sum_add, sum_indicator by assumption.
      rewrite IH by (intros r' Hr'; apply Hk; right; exact Hr').
      cbn [map]. rewrite sum_cons. reflexivity.
    + intros c. unfold group. cbn [filter]. rewrite Hc0. cbn [key_eqb].
      destruct (String.eqb c0 c); cbn [map].
      * rewrite sum_cons. reflexivity.
      * lra.
Qed.

(** X19. When every row names its commodity, the "Average Retail Price"
    metric is the mean of the commodity means weighted by their numbers
    of observations. *)
Theorem average_price_weighted (df : list Price.row) (a : R) :
  (forall r, In r df -> Price.Commodity_Name r <> None) ->
  average_retail_price df = Some a ->
  Series.sum (map (weighted_mean df) (stats df))
  = (INR (length df) * a)%R.
Proof.
  intros Hnames Ha. unfold average_retail_price in Ha.
  apply mean_sum in Ha. rewrite length_map in Ha. rewrite <- Ha.
  unfold stats. rewrite map_map.
  rewrite <- (group_partition_sum _ Price.Commodity_Name
                Price.Retail_Price
                (group_keys (map Price.Commodity_Name df)) df).
  - apply f_equal. apply map_ext_in. intros c Hc.
    unfold weighted_mean.
    cbn [Stats.Mean_Price Stats.Commodity_Name group_prices].
    destruct (Series.mean (map Price.Retail_Price
                               (group Price.Commodity_Name c df)))
      as [m|] eqn:Em.
    + symmetry. apply mean_sum. exact Em.
    + apply (group_nonempty _ _ _ _) in Hc.
      destruct (group Price.Commodity_Name c df); [congruence|].
      discriminate Em.
  - apply group_keys_NoDup.
  - intros r Hr. destruct (Price.Commodity_Name r) as [c|] eqn:Ec.
    + exists c. split; [reflexivity|]. apply group_keys_In.
      rewrite <- Ec. apply in_map. exact Hr.
    + exfalso. exact (Hnames r Hr Ec).
Qed.

Lemma average_price_witness :
  Series.sum (map (weighted_mean example_flat) (stats example_flat))
  = (INR (length example_flat) * 10)%R.
Proof.
  apply (average_price_weighted example_flat 10%R).
  - intros r [<- | [<- | []]]; discriminate.
  - unfold average_retail_price, Series.mean, Series.sum. simpl.
    f_equal. lra.
Defined.

(** ** The monthly series *)









(** ** Column names *)

Lemma has_column_In (name : string) (columns : list string) :
  has_column name columns = true <-> In name columns.
Proof.
  unfold has_column. rewrite existsb_exists. split.
  - intros (c & Hin & E). apply String.eqb_eq in E. subst. exact Hin.
  - intros Hin. exists name. split; [exact Hin | apply String.eqb_refl].
Qed.

Lemma rename_In (columns : list string) (old new c : string) :
  In c (rename columns old new) <->
  (c = new /\ In old columns) \/ (c <> old /\ In c columns).
Proof.
  unfold rename. rewrite in_map_iff. split.
  - intros (x & E & Hin). destruct (String.eqb_spec x old) as [Heq|Hne].
    + left. subst. auto.
    + right. subst. auto.
  - intros [[-> Hin] | [Hne Hin]].
    + exists old. rewrite String.eqb_refl. auto.
    + exists c. destruct (String.eqb_spec c old); [congruence | auto].
Qed.

Lemma rename_length (columns : list string) (old new : string) :
  length (rename columns old new) = length columns.
Proof. unfold rename. apply length_map. Qed.

Lemma rename_price_length (columns : list string) :
  length (rename_price columns) = length columns.
Proof.
  unfold rename_price. destruct (has_column "Retail_Price" columns);
    [reflexivity|].
  destruct (filter mentions_price columns); [reflexivity|].
  apply rename_length.
Qed.

Lemma rename_commodity_length (columns : list string) :
  length (rename_commodity columns) = length columns.
Proof.
  unfold rename_commodity. destruct (has_column "Commodity_Name" columns);
    [reflexivity|].
  destruct (filter mentions_commodity columns); [reflexivity|].
  apply rename_length.
Qed.

(** X21. The renaming of lines 329-339 keeps the number of columns.
    After it a [Retail_Price] column exists exactly when there was one or
    some column name mentions "price" in any letter case, and the search
    for the commodity column never takes the [Retail_Price] column
    away. *)
Theorem renamed_columns_spec (columns : list string) :
  length (renamed_columns columns) = length columns /\
  (In "Retail_Price"%string (rename_price columns) <->
   In "Retail_Price"%string columns \/
   exists c, In c columns /\ mentions_price c = true) /\
  (In "Retail_Price"%string (rename_price columns) ->
   In "Retail_Price"%string (renamed_columns columns)).
Proof.
  split; [|split].
  - unfold renamed_columns.
    rewrite rename_commodity_length. apply rename_price_length.
  - unfold rename_price.
    destruct (has_column "Retail_Price" columns) eqn:Eh.
    + apply has_column_In in Eh. tauto.
    + assert (Hno : ~ In "Retail_Price"%string columns).
      { intros H. apply has_column_In in H. congruence. }
      destruct (filter mentions_price columns) as [|c0 l] eqn:Ef.
      * split; [tauto|]. intros [H | (c & Hc & Hm)]; [exact H|].
        exfalso.
        assert (Hin : In c (filter mentions_price columns))
          by (apply filter_In; auto).
        rewrite Ef in Hin. exact Hin.
      * assert (H0 : In c0 (filter mentions_price columns))
          by (rewrite Ef; left; reflexivity).
        apply filter_In in H0. destruct H0 as [Hin0 Hm0].
        split.
        -- intros _. right. exists c0. auto.
        -- intros _. apply rename_In. left. auto.
  - intros Hin. unfold renamed_columns, rename_commodity.
    destruct (has_column "Commodity_Name" (rename_price columns));
      [exact Hin|].
    destruct (filter mentions_commodity (rename_price columns))
      as [|c0 l] eqn:Ef; [exact Hin|].
    apply rename_In. right. split; [|exact Hin].
    intros E. subst c0.
    assert (H0 : In "Retail_Price"%string
                    (filter mentions_commodity (rename_price columns)))
      by (rewrite Ef; left; reflexivity).
    apply filter_In in H0. destruct H0 as [_ Hm]. discriminate Hm.
Qed.
